(** * Renew Power qualification engine (main.py): scoring rules verified

    A shallow embedding of [normalize_monthly_bill], the [map_*] and
    [normalize_*] helpers and [apply_scoring] of main.py, with the fragment of
    Python's [str] and [float] they call, followed by the properties the
    specification states about them. *)

From Stdlib Require Import ZArith NArith List Bool String Ascii Floats QArith Lia Permutation.
Import ListNotations.

Local Open Scope Z_scope.

(** ** The Python fragment the program uses *)

Module Py.

(** A [str] is a sequence of Unicode code points. *)
Definition char := N.
Definition str := list char.

(** A source literal; every literal of main.py but the en-dash is ASCII. *)
Definition lit (s : string) : str := map N_of_ascii (list_ascii_of_string s).

Definition en_dash : char := 8211%N.   (* U+2013 *)

Fixpoint str_eqb (a b : str) : bool :=
  match a, b with
  | [], [] => true
  | c :: a', d :: b' => (c =? d)%N && str_eqb a' b'
  | _, _ => false
  end.

(** [s.startswith(p)] *)
Fixpoint startswith (s p : str) : bool :=
  match p, s with
  | [], _ => true
  | c :: p', d :: s' => (c =? d)%N && startswith s' p'
  | _ :: _, [] => false
  end.

(** [sub in s] *)
Fixpoint contains (sub s : str) : bool :=
  startswith s sub ||
  match s with
  | [] => false
  | _ :: s' => contains sub s'
  end.

(** [s.replace(old, new)] for a one-character [old], which is how the
    program calls it. *)
Definition replace (s : str) (old : char) (new : str) : str :=
  flat_map (fun c => if (c =? old)%N then new else [c]) s.

(** [s.split(sep)] for a one-character [sep]. *)
Fixpoint split (s : str) (sep : char) : list str :=
  match s with
  | [] => [[]]
  | c :: s' =>
      if (c =? sep)%N then [] :: split s' sep
      else match split s' sep with
           | [] => [[c]]
           | p :: ps => (c :: p) :: ps
           end
  end.

(** The Unicode database, which Python consults for text outside ASCII:
    the lowercase mapping of a string, the white-space property and the
    decimal-digit value of a code point. *)
Record Unicode := {
  unicode_lower : str -> str;
  unicode_isspace : char -> bool;
  unicode_todecimal : char -> option N
}.

Definition is_ascii (c : char) : bool := (c <? 128)%N.

Definition ascii_lower (c : char) : char :=
  if (65 <=? c)%N && (c <=? 90)%N then (c + 32)%N else c.

(** [s.lower()]: ASCII text is lowered letter by letter, other text goes
    through the Unicode tables. *)
Definition lower (U : Unicode) (s : str) : str :=
  if forallb is_ascii s then map ascii_lower s else unicode_lower U s.

(** Exceptions the modelled statements can raise. *)
Inductive exn := ValueError | IndexError.

Definition result (A : Type) : Type := exn + A.

Definition ret {A} (a : A) : result A := inr a.
Definition raise {A} (e : exn) : result A := inl e.
Definition bind {A B} (m : result A) (k : A -> result B) : result B :=
  match m with
  | inl e => inl e
  | inr a => k a
  end.

(** [m] returns normally, with a value satisfying [P]. *)
Definition returns {A} (m : result A) (P : A -> Prop) : Prop :=
  match m with
  | inl _ => False
  | inr a => P a
  end.

(** [l[i]] for a non-negative constant index. *)
Definition index {A} (l : list A) (i : nat) : result A :=
  match nth_error l i with
  | Some a => ret a
  | None => raise IndexError
  end.

(** *** [float(s)] *)

Definition is_digit (c : char) : bool := (48 <=? c)%N && (c <=? 57)%N.

(** White space of the C locale, which [float] strips: tab, LF, VT, FF, CR
    and the space. *)
Definition is_cspace (c : char) : bool :=
  ((9 <=? c)%N && (c <=? 13)%N) || (c =? 32)%N.

(** Unicode white space becomes a space and Unicode decimal digits become
    ASCII digits; at the first other non-ASCII character the text is cut
    after a ['?']. *)
Fixpoint transform_decimal_and_space (U : Unicode) (s : str) : str :=
  match s with
  | [] => []
  | c :: s' =>
      if (c <? 127)%N then c :: transform_decimal_and_space U s'
      else if unicode_isspace U c then 32%N :: transform_decimal_and_space U s'
      else match unicode_todecimal U c with
           | Some d => (48 + d)%N :: transform_decimal_and_space U s'
           | None => [63%N]
           end
  end.

Definition to_ascii (U : Unicode) (s : str) : str :=
  if forallb is_ascii s then s else transform_decimal_and_space U s.

(** An underscore is allowed only between two digits; [prev] is the
    character before, 0 at the start. *)
Fixpoint drop_underscores (prev : char) (s : str) : option str :=
  match s with
  | [] => if (prev =? 95)%N then None else Some []
  | c :: s' =>
      if (c =? 95)%N then
        if is_digit prev then drop_underscores c s' else None
      else if (prev =? 95)%N && negb (is_digit c) then None
      else option_map (cons c) (drop_underscores c s')
  end.

Fixpoint lstrip (s : str) : str :=
  match s with
  | c :: s' => if is_cspace c then lstrip s' else s
  | [] => []
  end.

Definition strip (s : str) : str := rev (lstrip (rev (lstrip s))).

Fixpoint span_digits (s : str) : str * str :=
  match s with
  | c :: s' =>
      if is_digit c then let (d, r) := span_digits s' in (c :: d, r)
      else ([], s)
  | [] => ([], [])
  end.

Definition digits_value (d : str) : Z :=
  fold_left (fun acc c => 10 * acc + Z.of_N (c - 48)) d 0.

Definition strip_sign (s : str) : bool * str :=
  match s with
  | 45%N :: r => (true, r)
  | 43%N :: r => (false, r)
  | _ => (false, s)
  end.

(** The nearest binary64 value, ties to even, of [m * 10 ^ e] for [0 < m].
    [nd] is the number of digits of [m] read: beyond the range of the format
    the answer is fixed without computing the power. *)
Definition round_decimal (m e : Z) (nd : Z) : spec_float :=
  if 400 <? e then S754_infinity false
  else if e + nd <? -400 then S754_zero false
  else if 0 <=? e then binary_normalize prec emax (m * 10 ^ e) 0 false
  else
    let d := 10 ^ (- e) in
    let k := Z.log2_up d + 70 in
    let n := m * 2 ^ k in
    let sticky := if (n mod d =? 0) then 0 else 1 in
    binary_normalize prec emax (2 * (n / d) + sticky) (- k - 1) false.

Definition decimal_value (neg : bool) (m e nd : Z) : float :=
  let x := if m =? 0 then S754_zero false else round_decimal m e nd in
  SF2Prim (if neg then SFopp x else x).

(** The exponent part: nothing, or [e] or [E], an optional sign and at
    least one digit, up to the end of the text. *)
Definition parse_exponent (s : str) : option Z :=
  match s with
  | [] => Some 0
  | c :: r =>
      if (c =? 101)%N || (c =? 69)%N then
        let (neg, r1) := strip_sign r in
        match span_digits r1 with
        | ((_ :: _) as d, []) =>
            Some (if neg then - digits_value d else digits_value d)
        | _ => None
        end
      else None
  end.

(** A decimal number: digits with an optional point, at least one digit
    before or after it, and an optional exponent. *)
Definition parse_decimal (s : str) : option float :=
  let (neg, r) := strip_sign s in
  let (ip, r1) := span_digits r in
  let (fp, r2) :=
    match r1 with
    | 46%N :: r' => span_digits r'
    | _ => ([], r1)
    end in
  match ip ++ fp with
  | [] => None
  | ds =>
      match parse_exponent r2 with
      | Some e =>
          Some (decimal_value neg (digits_value ds)
                  (e - Z.of_nat (List.length fp)) (Z.of_nat (List.length ds)))
      | None => None
      end
  end.

(** [inf], [infinity] and [nan], in any letter case, with an optional
    sign. *)
Definition parse_inf_or_nan (s : str) : option float :=
  let (neg, r) := strip_sign s in
  let w := map ascii_lower r in
  if str_eqb w (lit "inf") || str_eqb w (lit "infinity") then
    Some (if neg then neg_infinity else infinity)
  else if str_eqb w (lit "nan") then Some nan
  else None.

(** [float(s)] for a [str]; a text that is not a number raises
    [ValueError]. *)
Definition float_of_str (U : Unicode) (s : str) : result float :=
  match drop_underscores 0%N (to_ascii U s) with
  | None => raise ValueError
  | Some t =>
      let t := strip t in
      match parse_decimal t with
      | Some x => ret x
      | None =>
          match parse_inf_or_nan t with
          | Some x => ret x
          | None => raise ValueError
          end
      end
  end.

(** [int] to [float], as in [score * 0.4]. *)
Definition float_of_int (z : Z) : float :=
  SF2Prim (binary_normalize prec emax z 0 false).

(** A Unicode database with nothing outside ASCII. *)
Definition ascii_only : Unicode :=
  {| unicode_lower := map ascii_lower;
     unicode_isspace := fun _ => false;
     unicode_todecimal := fun _ => None |}.

End Py.

(** ** main.py *)

Module Main.
Import Py.

Notation "x <- m ;; k" := (bind m (fun x => k))
  (at level 61, m at next level, right associativity).

(** *** Data models *)

Record LeadInput := {
  name : option str;
  email : option str;
  phone : option str;
  address : option str;
  city : option str;
  state : option str;
  zip : option str;
  source : option str;
  property_type : option str;
  is_landlord : option bool;
  property_count : option Z;
  roof_type : option str;
  roof_age_years : option Z;
  shading_level : option str;
  hoa_allows_solar : option str;
  distance_minutes : option Z;
  monthly_bill_raw : option str;
  monthly_bill : option float;
  true_up_band : option str;
  credit_band : option str;
  motivation : option str;
  decision_style : option str
}.

Record LeadScore := {
  property_score : Z;
  financial_score : Z;
  behavioral_score : Z;
  landlord_score : Z;
  ai_tier : str;
  buyer_type : str;
  pain_points : list str;
  reject_reasons : list str
}.

(** The assignment [lead.monthly_bill = x]: the record is the one the
    caller holds, so the function hands it back changed. *)
Definition set_monthly_bill (lead : LeadInput) (x : float) : LeadInput :=
  {| name := name lead; email := email lead; phone := phone lead;
     address := address lead; city := city lead; state := state lead;
     zip := zip lead; source := source lead;
     property_type := property_type lead; is_landlord := is_landlord lead;
     property_count := property_count lead; roof_type := roof_type lead;
     roof_age_years := roof_age_years lead;
     shading_level := shading_level lead;
     hoa_allows_solar := hoa_allows_solar lead;
     distance_minutes := distance_minutes lead;
     monthly_bill_raw := monthly_bill_raw lead;
     monthly_bill := Some x;
     true_up_band := true_up_band lead; credit_band := credit_band lead;
     motivation := motivation lead; decision_style := decision_style lead |}.

(** A lead with every field at the default of its declaration. *)
Definition empty_lead : LeadInput :=
  {| name := None; email := None; phone := None; address := None;
     city := None; state := None; zip := None; source := None;
     property_type := None; is_landlord := Some false;
     property_count := Some 0; roof_type := None; roof_age_years := None;
     shading_level := None; hoa_allows_solar := None;
     distance_minutes := None; monthly_bill_raw := None;
     monthly_bill := None; true_up_band := None; credit_band := None;
     motivation := None; decision_style := None |}.

Definition nonempty {A} (l : list A) : bool :=
  match l with
  | [] => false
  | _ :: _ => true
  end.

(** [o == s] for an [Optional[str]] and a literal. *)
Definition opt_eqb (o : option str) (s : str) : bool :=
  match o with
  | Some t => str_eqb t s
  | None => false
  end.

Definition dollar : char := 36%N.
Definition space : char := 32%N.
Definition hyphen : char := 45%N.

(** The float literals of the weighted total. *)
Definition f0_4 : float := 0x1.999999999999ap-2.    (* 0.4 *)
Definition f0_35 : float := 0x1.6666666666666p-2.   (* 0.35 *)
Definition f0_25 : float := 0.25.

Section Engine.

Variable U : Unicode.

(** *** Helper functions *)

Definition normalize_monthly_bill (lead : LeadInput) : result LeadInput :=
  match monthly_bill lead with
  | Some _ => ret lead
  | None =>
      match monthly_bill_raw lead with
      | None | Some [] => ret lead
      | Some raw0 =>
          let raw :=
            replace (replace (replace raw0 dollar []) space [])
                    en_dash [hyphen] in
          (* Single value *)
          let single_value :=
            match float_of_str U raw with
            | inr x => ret (set_monthly_bill lead x)
            | inl ValueError => ret lead
            | inl e => raise e
            end in
          (* Look for ranges like 200-400 *)
          if contains [hyphen] raw then
            let parts := split raw hyphen in
            match
              (p0 <- index parts 0 ;;
               low <- float_of_str U p0 ;;
               p1 <- index parts 1 ;;
               high <- float_of_str U p1 ;;
               ret (set_monthly_bill lead ((low + high) / 2)%float))
            with
            | inr lead' => ret lead'
            | inl ValueError => single_value
            | inl e => raise e
            end
          else single_value
      end
  end.

Definition map_shading_to_code (shading_level : option str) : option str :=
  match shading_level with
  | None | Some [] => None
  | Some t =>
      let s := lower U t in
      if contains (lit "full") s then Some (lit "full_sun")
      else if contains (lit "mostly") s then Some (lit "mostly_sunny")
      else if contains (lit "partial") s then Some (lit "partial_shade")
      else if contains (lit "heavy") s then Some (lit "heavy_shade")
      else Some (lit "unknown")
  end.

Definition map_hoa_to_bool (hoa : option str) : option bool :=
  match hoa with
  | None | Some [] => None
  | Some t =>
      let s := lower U t in
      if contains (lit "no hoa") s then Some true
      else if contains (lit "allow") s then Some true
      else if contains (lit "restriction") s then Some false
      else None
  end.

Definition map_credit_band (credit_band : option str) : str :=
  match credit_band with
  | Some ((_ :: _) as t) => t
  | _ => lit "Unknown"
  end.

Definition map_true_up_band (true_up_band : option str) : str :=
  match true_up_band with
  | Some ((_ :: _) as t) => t
  | _ => lit "Unknown"
  end.

Definition normalize_decision_style (style : option str) : str :=
  match style with
  | Some ((_ :: _) as t) => t
  | _ => lit "Unknown"
  end.

Definition normalize_motivation (m : option str) : str :=
  match m with
  | Some ((_ :: _) as t) => t
  | _ => lit "Other/Unknown"
  end.

(** *** Core scoring logic *)

(** The weighted total for the tier, in binary64 as the program computes
    it, left to right. *)
Definition total_weighted
    (property_score financial_score behavioral_score landlord_score : Z)
    : float :=
  (float_of_int property_score * f0_4 +
   float_of_int financial_score * f0_35 +
   float_of_int behavioral_score * f0_25 +
   float_of_int (if (75 <=? landlord_score)%Z then 15%Z else 0%Z))%float.

Definition tier_of (total_weighted : float) : str :=
  if (90 <=? total_weighted)%float then lit "HOT"
  else if (75 <=? total_weighted)%float then lit "QUALIFIED"
  else if (60 <=? total_weighted)%float then lit "NURTURE"
  else lit "REJECT".

(** [apply_scoring] returns the score; the lead it was given comes back
    with it, as [normalize_monthly_bill] left it. *)
Definition apply_scoring (lead : LeadInput)
    : result (LeadInput * LeadScore) :=
  let reject_reasons : list str := [] in
  (* Normalize some derived values *)
  lead <- normalize_monthly_bill lead ;;
  let shading_code := map_shading_to_code (shading_level lead) in
  let hoa_ok := map_hoa_to_bool (hoa_allows_solar lead) in
  let cb := map_credit_band (credit_band lead) in
  let tub := lower U (map_true_up_band (true_up_band lead)) in
  (* Hard disqualifications *)
  let reject_reasons :=
    if match distance_minutes lead with
       | Some d => 90 <? d
       | None => false
       end
    then reject_reasons ++ [lit "Outside 90-minute radius"]
    else reject_reasons in
  let reject_reasons :=
    match roof_type lead with
    | None | Some [] => reject_reasons
    | Some t =>
        let rt := lower U t in
        if contains (lit "wood") rt && contains (lit "shake") rt
        then reject_reasons ++ [lit "Wood shake roof"]
        else reject_reasons
    end in
  let reject_reasons :=
    if opt_eqb shading_code (lit "heavy_shade")
    then reject_reasons ++ [lit "Excessive shading"]
    else reject_reasons in
  let reject_reasons :=
    if match monthly_bill lead with
       | Some b => (b <? 150)%float
       | None => false
       end
    then reject_reasons ++ [lit "Monthly bill under $150"]
    else reject_reasons in
  let reject_reasons :=
    match hoa_ok with
    | Some false => reject_reasons ++ [lit "HOA does not allow solar"]
    | _ => reject_reasons
    end in
  let reject_reasons :=
    if match roof_age_years lead with
       | Some a => 15 <=? a
       | None => false
       end
    then reject_reasons ++
         [lit "Roof likely needs replacement within 5 years"]
    else reject_reasons in
  let reject_reasons :=
    if startswith (lower U cb) (lit "under 650")
    then reject_reasons ++ [lit "Credit score below 650"]
    else reject_reasons in
  if nonempty reject_reasons then
    ret (lead,
         {| property_score := 20;
            financial_score := 20;
            behavioral_score := 40;
            landlord_score := 0;
            ai_tier := lit "REJECT";
            buyer_type := lit "Unknown";
            pain_points := [];
            reject_reasons := reject_reasons |})
  else
  (* Property score *)
  let property_score := 50 in
  let property_score :=
    match roof_type lead with
    | None | Some [] => property_score
    | Some t =>
        let rt := lower U t in
        if contains (lit "asphalt") rt || contains (lit "composition") rt
        then property_score + 25
        else if contains (lit "tile") rt || contains (lit "metal") rt
                || contains (lit "flat") rt
        then property_score + 15
        else property_score
    end in
  let property_score :=
    match roof_age_years lead with
    | Some a =>
        if a <=? 5 then property_score + 20
        else if a <=? 10 then property_score + 10
        else property_score
    | None => property_score
    end in
  let property_score :=
    if opt_eqb shading_code (lit "full_sun") then property_score + 15
    else if opt_eqb shading_code (lit "mostly_sunny")
    then property_score + 10
    else if opt_eqb shading_code (lit "partial_shade")
    then property_score + 0
    else property_score in
  let property_score := Z.max 0 (Z.min property_score 100) in
  (* Financial score *)
  let financial_score := 40 in
  let financial_score :=
    match monthly_bill lead with
    | Some b =>
        if (400 <=? b)%float then financial_score + 30
        else if (200 <=? b)%float then financial_score + 20
        else if (150 <=? b)%float then financial_score + 10
        else financial_score
    | None => financial_score
    end in
  let financial_score :=
    if contains (lit "500+") tub then financial_score + 20
    else if contains (lit "under 500") tub then financial_score + 10
    else financial_score in
  let financial_score :=
    if startswith (lower U cb) (lit "720") then financial_score + 20
    else if contains (lit "650" ++ en_dash :: lit "719") cb
            || contains (lit "650-719") cb
    then financial_score + 10
    else financial_score in
  let financial_score := Z.max 0 (Z.min financial_score 100) in
  (* Behavioral score / buyer type *)
  let behavioral_score := 50 in
  let buyer_type := lit "Unknown" in
  let pain_points : list str := [] in
  let style := normalize_decision_style (decision_style lead) in
  let s := lower U style in
  let '(behavioral_score, buyer_type) :=
    if contains (lit "research") s || contains (lit "quality") s
    then (behavioral_score + 25, lit "Quality Focused")
    else if contains (lit "trust") s && contains (lit "expert") s
    then (behavioral_score + 20, lit "Trusts Experts")
    else if contains (lit "price") s
    then (behavioral_score - 10, lit "Price Shopper")
    else if contains (lit "deal") s
    then (behavioral_score - 5, lit "Discount Seeker")
    else (behavioral_score, buyer_type) in
  let mot := lower U (normalize_motivation (motivation lead)) in
  let pain_points :=
    if contains (lit "saving") mot
    then pain_points ++ [lit "high_bills"] else pain_points in
  let pain_points :=
    if contains (lit "environment") mot
    then pain_points ++ [lit "environmental_impact"] else pain_points in
  let pain_points :=
    if contains (lit "independence") mot || contains (lit "backup") mot
    then pain_points ++ [lit "grid_dependence"] else pain_points in
  let pain_points :=
    if contains (lit "quality") mot
    then pain_points ++ [lit "quality_equipment"] else pain_points in
  let behavioral_score := Z.max 0 (Z.min behavioral_score 100) in
  (* Landlord score *)
  let landlord_score := 0 in
  let landlord_score :=
    match is_landlord lead with
    | Some true =>
        let landlord_score := 60 in
        match property_count lead with
        | None | Some 0 => landlord_score
        | Some n =>
            if 10 <=? n then 100
            else if 6 <=? n then 85
            else if 3 <=? n then 75
            else landlord_score
        end
    | _ => landlord_score
    end in
  (* Weighted total for AI tier *)
  let ai_tier :=
    tier_of (total_weighted property_score financial_score
               behavioral_score landlord_score) in
  ret (lead,
       {| property_score := property_score;
          financial_score := financial_score;
          behavioral_score := behavioral_score;
          landlord_score := landlord_score;
          ai_tier := ai_tier;
          buyer_type := buyer_type;
          pain_points := pain_points;
          reject_reasons := reject_reasons |}).

(** The endpoint [score_lead]: the enrichment hook returns the lead
    unchanged, then the lead is scored. *)
Definition enrich_with_property_data (lead : LeadInput) : LeadInput := lead.

Definition score_lead (lead : LeadInput) : result LeadScore :=
  r <- apply_scoring (enrich_with_property_data lead) ;;
  ret (snd r).

End Engine.

End Main.

(** ** The rules in the specification's words

    Section 4 of the specification describes the normalizer and the scoring
    engine as rule tables over the normalized lead. They are written here as
    the specification words them, to be compared with the program. *)

Module Spec.
Import Py Main.

Section Rules.

Variable U : Unicode.

(** **** 4.1 Bill normalization *)

Definition clean_bill (raw : str) : str :=
  replace (replace (replace raw dollar []) space []) en_dash [hyphen].

Definition parse_float (s : str) : option float :=
  match float_of_str U s with
  | inr x => Some x
  | inl _ => None
  end.

Definition mean (low high : float) : float := ((low + high) / 2)%float.

(** The estimate read from a raw bill text. *)
Definition estimate_of_raw (raw : str) : option float :=
  let c := clean_bill raw in
  if contains [hyphen] c then
    let parts := split c hyphen in
    match parse_float (nth 0 parts []), parse_float (nth 1 parts []) with
    | Some low, Some high => Some (mean low high)
    | _, _ => parse_float c
    end
  else parse_float c.

Definition bill_estimate (l : LeadInput) : option float :=
  match monthly_bill l with
  | Some b => Some b
  | None =>
      match monthly_bill_raw l with
      | Some ((_ :: _) as raw) => estimate_of_raw raw
      | _ => None
      end
  end.

(** The lead as normalization leaves it. *)
Definition normalized (l : LeadInput) : LeadInput :=
  match monthly_bill l, bill_estimate l with
  | None, Some x => set_monthly_bill l x
  | _, _ => l
  end.

(** **** 4.2 Hard disqualification *)

Definition far_away (l : LeadInput) : bool :=
  match distance_minutes l with
  | Some d => 90 <? d
  | None => false
  end.

Definition wood_shake (l : LeadInput) : bool :=
  match roof_type l with
  | Some t =>
      contains (lit "wood") (lower U t) && contains (lit "shake") (lower U t)
  | None => false
  end.

Definition heavy_shade (l : LeadInput) : bool :=
  opt_eqb (map_shading_to_code U (shading_level l)) (lit "heavy_shade").

Definition low_bill (l : LeadInput) : bool :=
  match monthly_bill l with
  | Some b => (b <? 150)%float
  | None => false
  end.

Definition hoa_restricted (l : LeadInput) : bool :=
  match map_hoa_to_bool U (hoa_allows_solar l) with
  | Some false => true
  | _ => false
  end.

Definition old_roof (l : LeadInput) : bool :=
  match roof_age_years l with
  | Some a => 15 <=? a
  | None => false
  end.

Definition low_credit (l : LeadInput) : bool :=
  startswith (lower U (map_credit_band (credit_band l))) (lit "under 650").

Definition rule := ((LeadInput -> bool) * str)%type.

Definition hard_rules : list rule :=
  [ (far_away, lit "Outside 90-minute radius");
    (wood_shake, lit "Wood shake roof");
    (heavy_shade, lit "Excessive shading");
    (low_bill, lit "Monthly bill under $150");
    (hoa_restricted, lit "HOA does not allow solar");
    (old_roof, lit "Roof likely needs replacement within 5 years");
    (low_credit, lit "Credit score below 650") ].

(** The labels of the rules that hold, in the order of the table. *)
Definition fire (rules : list rule) (l : LeadInput) : list str :=
  map snd (filter (fun r => fst r l) rules).

Definition hard_rejects (l : LeadInput) : list str := fire hard_rules l.

(** **** Sub-scores *)

Definition clamp (x : Z) : Z := Z.max 0 (Z.min x 100).

Definition roof_material_points (l : LeadInput) : Z :=
  match roof_type l with
  | Some t =>
      let rt := lower U t in
      if contains (lit "asphalt") rt || contains (lit "composition") rt
      then 25
      else if contains (lit "tile") rt || contains (lit "metal") rt
              || contains (lit "flat") rt
      then 15
      else 0
  | None => 0
  end.

Definition roof_age_points (l : LeadInput) : Z :=
  match roof_age_years l with
  | Some a => if a <=? 5 then 20 else if a <=? 10 then 10 else 0
  | None => 0
  end.

Definition shading_points (l : LeadInput) : Z :=
  let code := map_shading_to_code U (shading_level l) in
  if opt_eqb code (lit "full_sun") then 15
  else if opt_eqb code (lit "mostly_sunny") then 10
  else 0.

Definition graduated_property (l : LeadInput) : Z :=
  clamp (50 + roof_material_points l + roof_age_points l
         + shading_points l).

Definition bill_points (l : LeadInput) : Z :=
  match monthly_bill l with
  | Some b =>
      if (400 <=? b)%float then 30
      else if (200 <=? b)%float then 20
      else if (150 <=? b)%float then 10
      else 0
  | None => 0
  end.

Definition true_up_points (l : LeadInput) : Z :=
  let tub := lower U (map_true_up_band (true_up_band l)) in
  if contains (lit "500+") tub then 20
  else if contains (lit "under 500") tub then 10
  else 0.

Definition credit_points (l : LeadInput) : Z :=
  let cb := map_credit_band (credit_band l) in
  if startswith (lower U cb) (lit "720") then 20
  else if contains (lit "650" ++ en_dash :: lit "719") cb
          || contains (lit "650-719") cb
  then 10
  else 0.

Definition graduated_financial (l : LeadInput) : Z :=
  clamp (40 + bill_points l + true_up_points l + credit_points l).

(** The decision-style table, in priority order: the first row whose
    test holds gives the adjustment and the buyer type. *)
Definition decision_rules : list ((str -> bool) * (Z * str)) :=
  [ (fun s => contains (lit "research") s || contains (lit "quality") s,
     (25, lit "Quality Focused"));
    (fun s => contains (lit "trust") s && contains (lit "expert") s,
     (20, lit "Trusts Experts"));
    (fun s => contains (lit "price") s, (-10, lit "Price Shopper"));
    (fun s => contains (lit "deal") s, (-5, lit "Discount Seeker")) ].

Definition decision (l : LeadInput) : Z * str :=
  let s := lower U (normalize_decision_style (decision_style l)) in
  match find (fun r => fst r s) decision_rules with
  | Some r => snd r
  | None => (0, lit "Unknown")
  end.

Definition graduated_behavioral (l : LeadInput) : Z :=
  clamp (50 + fst (decision l)).

Definition buyer_type_of (l : LeadInput) : str := snd (decision l).

Definition pain_rules : list ((str -> bool) * str) :=
  [ (contains (lit "saving"), lit "high_bills");
    (contains (lit "environment"), lit "environmental_impact");
    (fun m => contains (lit "independence") m || contains (lit "backup") m,
     lit "grid_dependence");
    (contains (lit "quality"), lit "quality_equipment") ].

Definition pain_points_of (l : LeadInput) : list str :=
  let mot := lower U (normalize_motivation (motivation l)) in
  map snd (filter (fun r => fst r mot) pain_rules).

Definition landlord_score_of (l : LeadInput) : Z :=
  match is_landlord l with
  | Some true =>
      match property_count l with
      | Some n =>
          if 10 <=? n then 100
          else if 6 <=? n then 85
          else if 3 <=? n then 75
          else 60
      | None => 60
      end
  | _ => 0
  end.

(** **** Composite tier, in exact arithmetic *)

Definition weighted_sum (p f b ls : Z) : Q :=
  ((40 # 100) * inject_Z p + (35 # 100) * inject_Z f
   + (25 # 100) * inject_Z b
   + (if (75 <=? ls)%Z then 15 # 1 else 0 # 1))%Q.

Definition tier_of_sum (w : Q) : str :=
  if Qle_bool (90 # 1) w then lit "HOT"
  else if Qle_bool (75 # 1) w then lit "QUALIFIED"
  else if Qle_bool (60 # 1) w then lit "NURTURE"
  else lit "REJECT".

Definition composite_tier (p f b ls : Z) : str :=
  tier_of_sum (weighted_sum p f b ls).

(** **** The result record *)

Definition fixed_reject (reasons : list str) : LeadScore :=
  {| property_score := 20;
     financial_score := 20;
     behavioral_score := 40;
     landlord_score := 0;
     ai_tier := lit "REJECT";
     buyer_type := lit "Unknown";
     pain_points := [];
     reject_reasons := reasons |}.

(** The graduated result; its tier is the program's binary64 one. *)
Definition graduated (l : LeadInput) : LeadScore :=
  {| property_score := graduated_property l;
     financial_score := graduated_financial l;
     behavioral_score := graduated_behavioral l;
     landlord_score := landlord_score_of l;
     ai_tier :=
       tier_of (total_weighted (graduated_property l)
                  (graduated_financial l) (graduated_behavioral l)
                  (landlord_score_of l));
     buyer_type := buyer_type_of l;
     pain_points := pain_points_of l;
     reject_reasons := [] |}.

Definition score (l : LeadInput) : LeadScore :=
  if nonempty (hard_rejects l) then fixed_reject (hard_rejects l)
  else graduated l.

End Rules.

End Spec.

(** ** Sample leads and auxiliary notions for the claims *)

Module Samples.
Import Py Main Spec.

(** A lead that leaves every field out but the four given. *)
Definition sample_lead (distance age : option Z) (raw : option str)
    (bill : option float) : LeadInput :=
  {| name := None; email := None; phone := None; address := None;
     city := None; state := None; zip := None; source := None;
     property_type := None; is_landlord := None; property_count := None;
     roof_type := None; roof_age_years := age; shading_level := None;
     hoa_allows_solar := None; distance_minutes := distance;
     monthly_bill_raw := raw; monthly_bill := bill; true_up_band := None;
     credit_band := None; motivation := None; decision_style := None |}.

Definition absent_lead : LeadInput := sample_lead None None None None.

Definition lead_with_raw (raw : str) : LeadInput :=
  sample_lead None None (Some raw) None.

(** The bill text ["$200–$400"], with its en-dash. *)
Definition two_to_four_hundred : str :=
  lit "$200" ++ en_dash :: lit "$400".

(** A lead whose text fields are all present and empty. *)
Definition blank_lead : LeadInput :=
  {| name := Some []; email := Some []; phone := Some []; address := Some [];
     city := Some []; state := Some []; zip := Some []; source := Some [];
     property_type := Some []; is_landlord := None; property_count := None;
     roof_type := Some []; roof_age_years := None; shading_level := Some [];
     hoa_allows_solar := Some []; distance_minutes := None;
     monthly_bill_raw := Some []; monthly_bill := None;
     true_up_band := Some []; credit_band := Some []; motivation := Some [];
     decision_style := Some [] |}.

(** The score of a lead nothing is known about. *)
Definition neutral_score : LeadScore :=
  {| property_score := 50; financial_score := 40; behavioral_score := 50;
     landlord_score := 0; ai_tier := lit "REJECT";
     buyer_type := lit "Unknown"; pain_points := []; reject_reasons := [] |}.

Definition tiers : list str :=
  [lit "HOT"; lit "QUALIFIED"; lit "NURTURE"; lit "REJECT"].

Definition count_char (c : char) (s : str) : nat :=
  List.length (filter (N.eqb c) s).

(** The values the graduated sub-scores can take. *)
Definition sums (base : Z) (a b c : list Z) : list Z :=
  flat_map (fun x => flat_map (fun y =>
    map (fun z => clamp (base + x + y + z)) c) b) a.

Definition property_values : list Z := sums 50 [25; 15; 0] [20; 10; 0] [15; 10; 0].
Definition financial_values : list Z :=
  sums 40 [30; 20; 10; 0] [20; 10; 0] [20; 10; 0].
Definition behavioral_values : list Z :=
  map (fun d => clamp (50 + d)) [25; 20; -10; -5; 0].
Definition landlord_values : list Z := [0; 60; 75; 85; 100].

(** The binary64 tier and the exact one agree on given sub-scores. *)
Definition tiers_agree (p f b ls : Z) : bool :=
  str_eqb (tier_of (total_weighted p f b ls)) (composite_tier p f b ls).

Definition tiers_agree_on (ps fs bs lss : list Z) : bool :=
  forallb (fun p => forallb (fun f => forallb (fun b =>
    forallb (fun ls => tiers_agree p f b ls) lss) bs) fs) ps.

(** No text occurs twice in [l]. *)
Fixpoint distinct (l : list str) : bool :=
  match l with
  | [] => true
  | s :: l' => negb (existsb (str_eqb s) l') && distinct l'
  end.

(** Two of the reject reasons. *)
Definition outside_radius : str := lit "Outside 90-minute radius".
Definition roof_too_old : str :=
  lit "Roof likely needs replacement within 5 years".

Definition credit_too_low : str := lit "Credit score below 650".

(** The mean of the first two hyphen-separated parts of a cleaned bill
    text, when both are numbers. *)
Definition mean_of_first_two (U : Unicode) (c : str) : option float :=
  match parse_float U (nth 0 (split c hyphen) []),
        parse_float U (nth 1 (split c hyphen) []) with
  | Some low, Some high => Some (mean low high)
  | _, _ => None
  end.

(** A record is already normalized when its numeric bill is set whenever a
    raw bill text is present. *)
Definition already_normalized (l : LeadInput) : bool :=
  match monthly_bill_raw l, monthly_bill l with
  | Some _, None => false
  | _, _ => true
  end.

(** The bill a lead holds once [normalize_monthly_bill] has run on it. *)
Definition bill_after (U : Unicode) (l : LeadInput) : result (option float) :=
  bind (normalize_monthly_bill U l) (fun l' => ret (monthly_bill l')).

(** The codes [map_shading_to_code] gives. *)
Definition shading_codes : list str :=
  [lit "full_sun"; lit "mostly_sunny"; lit "partial_shade";
   lit "heavy_shade"; lit "unknown"].

(** The reject reasons, in the order the program tests their rules. *)
Definition excessive_shading : str := lit "Excessive shading".
Definition hoa_forbids : str := lit "HOA does not allow solar".
Definition bill_too_low : str := lit "Monthly bill under $150".
Definition hard_labels : list str :=
  [outside_radius; lit "Wood shake roof"; excessive_shading; bill_too_low;
   hoa_forbids; roof_too_old; credit_too_low].

(** The pain-point tags, in the order the program tests their keywords. *)
Definition pain_tags : list str :=
  [lit "high_bills"; lit "environmental_impact"; lit "grid_dependence";
   lit "quality_equipment"].

Definition mem (s : str) (l : list str) : bool := existsb (str_eqb s) l.

(** The buyer types with the behavioral score each goes with. *)
Definition buyer_profiles : list (str * Z) :=
  [(lit "Quality Focused", 75); (lit "Trusts Experts", 70);
   (lit "Price Shopper", 40); (lit "Discount Seeker", 45);
   (lit "Unknown", 50)].

(** A lead with a distance, a decision style and a motivation only. *)
Definition sample_profile (distance : option Z)
    (style mot : option str) : LeadInput :=
  {| name := None; email := None; phone := None; address := None;
     city := None; state := None; zip := None; source := None;
     property_type := None; is_landlord := None; property_count := None;
     roof_type := None; roof_age_years := None; shading_level := None;
     hoa_allows_solar := None; distance_minutes := distance;
     monthly_bill_raw := None; monthly_bill := None; true_up_band := None;
     credit_band := None; motivation := mot; decision_style := style |}.

(** A lead with a roof, a shading label and an HOA answer only. *)
Definition sample_site (roof : option str) (age : option Z)
    (shading hoa : option str) : LeadInput :=
  {| name := None; email := None; phone := None; address := None;
     city := None; state := None; zip := None; source := None;
     property_type := None; is_landlord := None; property_count := None;
     roof_type := roof; roof_age_years := age; shading_level := shading;
     hoa_allows_solar := hoa; distance_minutes := None;
     monthly_bill_raw := None; monthly_bill := None; true_up_band := None;
     credit_band := None; motivation := None; decision_style := None |}.

(** A lead with the landlord fields only. *)
Definition sample_landlord (flag : option bool) (count : option Z)
    : LeadInput :=
  {| name := None; email := None; phone := None; address := None;
     city := None; state := None; zip := None; source := None;
     property_type := None; is_landlord := flag; property_count := count;
     roof_type := None; roof_age_years := None; shading_level := None;
     hoa_allows_solar := None; distance_minutes := None;
     monthly_bill_raw := None; monthly_bill := None; true_up_band := None;
     credit_band := None; motivation := None; decision_style := None |}.

(** A landlord of four properties, with a composition roof of 8 years,
    mostly sunny, 30 minutes away, a bill of 250 and a credit band 720+. *)
Definition composition_landlord : LeadInput :=
  {| name := None; email := None; phone := None; address := None;
     city := None; state := None; zip := None; source := None;
     property_type := None; is_landlord := Some true;
     property_count := Some 4;
     roof_type := Some (lit "Composition shingle");
     roof_age_years := Some 8; shading_level := Some (lit "Mostly sunny");
     hoa_allows_solar := None; distance_minutes := Some 30;
     monthly_bill_raw := None; monthly_bill := Some 250%float;
     true_up_band := None; credit_band := Some (lit "720+");
     motivation := None; decision_style := None |}.

(** A lead five hard rules reject: a wood-shake roof, heavy shade, a bill
    of 100, an HOA with restrictions and a credit band under 650. *)
Definition five_faults : LeadInput :=
  {| name := None; email := None; phone := None; address := None;
     city := None; state := None; zip := None; source := None;
     property_type := None; is_landlord := None; property_count := None;
     roof_type := Some (lit "Wood Shake"); roof_age_years := None;
     shading_level := Some (lit "Heavy shade");
     hoa_allows_solar := Some (lit "Restrictions apply");
     distance_minutes := None;
     monthly_bill_raw := Some (lit "$100"); monthly_bill := None;
     true_up_band := None; credit_band := Some (lit "Under 650");
     motivation := None; decision_style := None |}.

(** The same lead, its owner not a landlord. *)
Definition as_non_landlord (l : LeadInput) : LeadInput :=
  {| name := name l; email := email l; phone := phone l;
     address := address l; city := city l; state := state l; zip := zip l;
     source := source l; property_type := property_type l;
     is_landlord := Some false; property_count := property_count l;
     roof_type := roof_type l; roof_age_years := roof_age_years l;
     shading_level := shading_level l;
     hoa_allows_solar := hoa_allows_solar l;
     distance_minutes := distance_minutes l;
     monthly_bill_raw := monthly_bill_raw l; monthly_bill := monthly_bill l;
     true_up_band := true_up_band l; credit_band := credit_band l;
     motivation := motivation l; decision_style := decision_style l |}.

(** The tiers from worst to best. *)
Definition tier_rank (t : str) : nat :=
  if str_eqb t (lit "HOT") then 3
  else if str_eqb t (lit "QUALIFIED") then 2
  else if str_eqb t (lit "NURTURE") then 1
  else 0.

(** The landlord bonus lowers the tier of no sub-scores of the lists. *)
Definition bonus_helps_on (ps fs bs lss : list Z) : bool :=
  forallb (fun p => forallb (fun f => forallb (fun b =>
    forallb (fun ls =>
      (tier_rank (tier_of (total_weighted p f b 0))
       <=? tier_rank (tier_of (total_weighted p f b ls)))%nat) lss) bs) fs) ps.

End Samples.

(** ** The program meets the rules *)

Module Proofs.
Import Py Main Spec.

(** *** Strings *)

Lemma split_cons (s : str) (sep : char) :
  exists p ps, split s sep = p :: ps.
Proof.
  induction s as [|c s IH]; simpl.
  - eauto.
  - destruct (c =? sep)%N; [eauto|].
    destruct IH as (p & ps & ->). eauto.
Qed.

(** A text that contains the separator splits into two parts at least, so
    [parts[1]] exists. *)
Lemma split_contains (s : str) (sep : char) :
  contains [sep] s = true ->
  exists p0 p1 ps, split s sep = p0 :: p1 :: ps.
Proof.
  induction s as [|c s IH]; simpl.
  - discriminate.
  - intro H. destruct (c =? sep)%N eqn:E.
    + destruct (split_cons s sep) as (p & ps & ->). eauto.
    + rewrite N.eqb_sym, E in H. simpl in H.
      destruct (IH H) as (p0 & p1 & ps & ->). eauto.
Qed.

Lemma float_of_str_exn (U : Unicode) (s : str) (e : exn) :
  float_of_str U s = inl e -> e = ValueError.
Proof.
  unfold float_of_str.
  destruct (drop_underscores _ _); [|intro H; injection H; auto].
  destruct (parse_decimal _); [discriminate|].
  destruct (parse_inf_or_nan _); [discriminate|].
  intro H; injection H; auto.
Qed.

Lemma float_of_str_parse (U : Unicode) (s : str) :
  float_of_str U s =
    match parse_float U s with
    | Some x => inr x
    | None => inl ValueError
    end.
Proof.
  unfold parse_float.
  destruct (float_of_str U s) as [e|x] eqn:E; [|reflexivity].
  now rewrite (float_of_str_exn _ _ _ E).
Qed.

(** *** The normalizer *)

Lemma normalize_monthly_bill_eq (U : Unicode) (l : LeadInput) :
  normalize_monthly_bill U l = ret (normalized U l).
Proof.
  unfold normalize_monthly_bill, normalized, bill_estimate.
  destruct (monthly_bill l) as [b|]; [reflexivity|].
  destruct (monthly_bill_raw l) as [[|c raw]|]; try reflexivity.
  unfold estimate_of_raw. fold (clean_bill (c :: raw)).
  set (cl := clean_bill (c :: raw)).
  cbv zeta. rewrite !float_of_str_parse.
  destruct (contains [hyphen] cl) eqn:Hc.
  - destruct (split_contains _ _ Hc) as (p0 & p1 & ps & ->).
    cbn [index nth_error nth bind ret]. rewrite !float_of_str_parse.
    destruct (parse_float U p0) as [low|]; cbn [bind].
    + destruct (parse_float U p1) as [high|]; cbn [bind ret].
      * reflexivity.
      * destruct (parse_float U cl); reflexivity.
    + destruct (parse_float U p1), (parse_float U cl); reflexivity.
  - destruct (parse_float U cl); reflexivity.
Qed.

Lemma normalize_monthly_bill_frame (U : Unicode) (l : LeadInput) :
  let l' := normalized U l in
  name l' = name l /\ email l' = email l /\ phone l' = phone l /\
  address l' = address l /\ city l' = city l /\ state l' = state l /\
  zip l' = zip l /\ source l' = source l /\
  property_type l' = property_type l /\ is_landlord l' = is_landlord l /\
  property_count l' = property_count l /\ roof_type l' = roof_type l /\
  roof_age_years l' = roof_age_years l /\
  shading_level l' = shading_level l /\
  hoa_allows_solar l' = hoa_allows_solar l /\
  distance_minutes l' = distance_minutes l /\
  monthly_bill_raw l' = monthly_bill_raw l /\
  true_up_band l' = true_up_band l /\ credit_band l' = credit_band l /\
  motivation l' = motivation l /\ decision_style l' = decision_style l.
Proof.
  unfold normalized.
  destruct (monthly_bill l), (bill_estimate U l); cbn; repeat split.
Qed.

Lemma normalized_monthly_bill (U : Unicode) (l : LeadInput) :
  monthly_bill (normalized U l) = bill_estimate U l.
Proof.
  unfold normalized.
  destruct (monthly_bill l) as [b|] eqn:E.
  - unfold bill_estimate. now rewrite E.
  - destruct (bill_estimate U l); [reflexivity | exact E].
Qed.

Lemma normalized_idem (U : Unicode) (l : LeadInput) :
  normalized U (normalized U l) = normalized U l.
Proof.
  unfold normalized at 1. rewrite normalized_monthly_bill.
  destruct (bill_estimate U l) as [x|] eqn:E; [reflexivity|].
  unfold bill_estimate. rewrite normalized_monthly_bill, E.
  destruct (normalize_monthly_bill_frame U l)
    as (_&_&_&_&_&_&_&_&_&_&_&_&_&_&_&_&Hraw&_).
  rewrite Hraw. unfold bill_estimate in E.
  destruct (monthly_bill l); [discriminate|].
  destruct (monthly_bill_raw l) as [[|c raw]|]; try reflexivity.
  now rewrite E.
Qed.

(** *** The scoring engine *)

Lemma nonempty_false {A} (l : list A) : nonempty l = false -> l = [].
Proof. destruct l; [reflexivity|discriminate]. Qed.

Lemma nonempty_true {A} (l : list A) : nonempty l = true -> l <> [].
Proof. destruct l; [discriminate|]. intros _ H; discriminate. Qed.

Ltac break_match :=
  repeat match goal with
         | |- context [match ?x with _ => _ end] => destruct x
         end.

(** An empty text contains no keyword. *)
Ltac nil_text :=
  repeat match goal with
         | |- context [lower ?U []] => change (lower U []) with (@nil char)
         | |- context [contains (lit ?p) []] =>
             change (contains (lit p) []) with false
         end;
  cbn [andb orb].

(** [apply_scoring] normalizes the lead it is given and returns the score
    the rule tables give for the normalized lead. *)
Lemma apply_scoring_eq (U : Unicode) (l : LeadInput) :
  apply_scoring U l = ret (normalized U l, score U (normalized U l)).
Proof.
  unfold apply_scoring. rewrite normalize_monthly_bill_eq. cbn [bind ret].
  generalize (normalized U l); clear l; intro l.
  cbv zeta.
  match goal with
  | |- (if nonempty ?r then _ else _) = _ =>
      assert (Hr : r = hard_rejects U l)
  end.
  { unfold hard_rejects, fire, hard_rules. cbn [filter fst].
    unfold far_away, wood_shake, heavy_shade, low_bill, hoa_restricted,
      old_roof, low_credit.
    destruct (roof_type l) as [[|c t]|]; nil_text.
    all: break_match; reflexivity. }
  rewrite Hr. unfold score.
  destruct (nonempty (hard_rejects U l)) eqn:Hne; [reflexivity|].
  apply nonempty_false in Hne. rewrite Hne. clear Hr Hne.
  match goal with
  | |- (let '(_, _) := ?X in _) = _ =>
      assert (Hd : X = (50 + fst (decision U l), snd (decision U l)))
  end.
  { unfold decision, decision_rules. cbn [find fst snd].
    break_match; reflexivity. }
  rewrite Hd. unfold ret, graduated. cbv beta iota. do 2 f_equal.
  match goal with
  | |- Build_LeadScore ?p ?f ?b ?ls _ _ ?pp _ = _ =>
      assert (Hp : p = graduated_property U l);
      [| assert (Hf : f = graduated_financial U l);
         [| assert (Hl : ls = landlord_score_of l);
            [| assert (Hpp : pp = pain_points_of U l);
               [| rewrite Hp, Hf, Hl, Hpp; reflexivity ]]]]
  end.
  - unfold graduated_property, clamp, roof_material_points,
      roof_age_points, shading_points.
    destruct (roof_type l) as [[|c t]|]; nil_text.
    all: break_match; reflexivity.
  - unfold graduated_financial, clamp, bill_points, true_up_points,
      credit_points.
    break_match; reflexivity.
  - unfold landlord_score_of.
    destruct (is_landlord l) as [[|]|], (property_count l) as [[|p|p]|];
      reflexivity.
  - unfold pain_points_of, pain_rules. cbn [filter fst].
    break_match; reflexivity.
Qed.

Lemma score_reject_reasons (U : Unicode) (l : LeadInput) :
  reject_reasons (score U l) = hard_rejects U l.
Proof.
  unfold score. destruct (nonempty (hard_rejects U l)) eqn:E.
  - reflexivity.
  - now rewrite (nonempty_false _ E).
Qed.

Lemma score_rejected (U : Unicode) (l : LeadInput) :
  hard_rejects U l <> [] -> score U l = fixed_reject (hard_rejects U l).
Proof.
  unfold score. destruct (hard_rejects U l); [congruence|reflexivity].
Qed.

Lemma score_graduated (U : Unicode) (l : LeadInput) :
  hard_rejects U l = [] -> score U l = graduated U l.
Proof. unfold score. now intros ->. Qed.

End Proofs.

(** ** The claims of the specification *)

Import Py Main Spec Samples Proofs.

Lemma clamp_range (x : Z) : 0 <= clamp x <= 100.
Proof. unfold clamp. lia. Qed.

Lemma landlord_score_of_range (l : LeadInput) :
  In (landlord_score_of l) [0; 60; 75; 85; 100].
Proof.
  unfold landlord_score_of.
  destruct (is_landlord l) as [[|]|]; simpl; auto.
  destruct (property_count l) as [n|]; simpl; auto.
  destruct (10 <=? n), (6 <=? n), (3 <=? n); simpl; auto 6.
Qed.

Lemma tier_of_tiers (w : float) : In (tier_of w) tiers.
Proof.
  unfold tier_of, tiers.
  destruct (90 <=? w)%float, (75 <=? w)%float, (60 <=? w)%float;
    simpl; auto.
Qed.

(** C3: for every lead, each of the four sub-scores returned lies in
    [0, 100] and the tier returned is one of HOT, QUALIFIED, NURTURE and
    REJECT. *)
Theorem scores_in_range (U : Unicode) (l : LeadInput) :
  returns (apply_scoring U l) (fun '(_, r) =>
    0 <= property_score r <= 100 /\
    0 <= financial_score r <= 100 /\
    0 <= behavioral_score r <= 100 /\
    0 <= landlord_score r <= 100 /\
    In (ai_tier r) tiers).
Proof.
  rewrite apply_scoring_eq. cbn [returns ret]. unfold score.
  destruct (nonempty _).
  - cbn. repeat split; try lia. auto.
  - cbn [graduated property_score financial_score behavioral_score
           landlord_score ai_tier].
    repeat split;
      try apply clamp_range; try apply tier_of_tiers;
      pose proof (landlord_score_of_range (normalized U l)) as H;
      simpl in H; lia.
Qed.

(** *** The lead as scored and the lead given *)

(** Normalization sets the numeric bill or leaves the lead alone. *)
Lemma normalized_cases (U : Unicode) (l : LeadInput) :
  normalized U l = l \/ exists x, normalized U l = set_monthly_bill l x.
Proof.
  unfold normalized.
  destruct (monthly_bill l); [now left|].
  destruct (bill_estimate U l) as [x|]; [right; eauto | now left].
Qed.

Lemma graduated_property_normalized (U : Unicode) (l : LeadInput) :
  graduated_property U (normalized U l) = graduated_property U l.
Proof.
  destruct (normalized_cases U l) as [-> | (x & ->)]; reflexivity.
Qed.

Lemma graduated_behavioral_normalized (U : Unicode) (l : LeadInput) :
  graduated_behavioral U (normalized U l) = graduated_behavioral U l.
Proof.
  destruct (normalized_cases U l) as [-> | (x & ->)]; reflexivity.
Qed.

Lemma landlord_score_of_normalized (U : Unicode) (l : LeadInput) :
  landlord_score_of (normalized U l) = landlord_score_of l.
Proof.
  destruct (normalized_cases U l) as [-> | (x & ->)]; reflexivity.
Qed.

(** The graduated sub-scores of the result, read off the lead given: only
    the financial one looks at the bill, which normalization may set. *)
Lemma graduated_of_input (U : Unicode) (l : LeadInput) :
  property_score (graduated U (normalized U l)) = graduated_property U l /\
  financial_score (graduated U (normalized U l))
    = graduated_financial U (normalized U l) /\
  behavioral_score (graduated U (normalized U l))
    = graduated_behavioral U l /\
  landlord_score (graduated U (normalized U l)) = landlord_score_of l.
Proof.
  cbn [graduated property_score financial_score behavioral_score
         landlord_score].
  rewrite graduated_property_normalized, graduated_behavioral_normalized,
    landlord_score_of_normalized. repeat split.
Qed.

(** C1: the reject reasons returned are those the hard rules give for the
    lead given, once normalized; whenever they are not empty the tier is
    REJECT and the sub-scores are the placeholders 20, 20, 40 and 0;
    whenever they are empty the sub-scores are the graduated ones of the
    rule tables for the lead given, the financial one with the bill that
    normalization leaves. *)
Theorem reject_or_graduated (U : Unicode) (l : LeadInput) :
  returns (apply_scoring U l) (fun '(l', r) =>
    l' = normalized U l /\
    monthly_bill l' = bill_estimate U l /\
    reject_reasons r = hard_rejects U (normalized U l) /\
    (reject_reasons r <> [] ->
     ai_tier r = lit "REJECT" /\
     property_score r = 20 /\ financial_score r = 20 /\
     behavioral_score r = 40 /\ landlord_score r = 0) /\
    (reject_reasons r = [] ->
     property_score r = graduated_property U l /\
     financial_score r = graduated_financial U (normalized U l) /\
     behavioral_score r = graduated_behavioral U l /\
     landlord_score r = landlord_score_of l)).
Proof.
  rewrite apply_scoring_eq. cbn [returns ret].
  split; [reflexivity|]. split; [apply normalized_monthly_bill|].
  rewrite score_reject_reasons. split; [reflexivity|]. split; intro H.
  - rewrite (score_rejected _ _ H). cbn. auto.
  - rewrite (score_graduated _ _ H). apply graduated_of_input.
Qed.

Lemma reject_or_graduated_witness :
  (exists l' r,
     apply_scoring ascii_only (sample_lead (Some 91) None None None)
       = inr (l', r) /\
     reject_reasons r <> [] /\ ai_tier r = lit "REJECT" /\
     property_score r = 20 /\ financial_score r = 20 /\
     behavioral_score r = 40 /\ landlord_score r = 0) /\
  (exists l' r,
     apply_scoring ascii_only composition_landlord = inr (l', r) /\
     reject_reasons r = [] /\
     property_score r = graduated_property ascii_only composition_landlord /\
     financial_score r
       = graduated_financial ascii_only
           (normalized ascii_only composition_landlord) /\
     behavioral_score r
       = graduated_behavioral ascii_only composition_landlord /\
     landlord_score r = landlord_score_of composition_landlord /\
     property_score r = 95 /\ financial_score r = 80 /\
     behavioral_score r = 50 /\ landlord_score r = 75).
Proof.
  split.
  - pose proof (reject_or_graduated ascii_only
                  (sample_lead (Some 91) None None None)) as H.
    destruct (apply_scoring ascii_only _) as [e|[l' r]] eqn:E;
      [destruct H|].
    vm_compute in E. injection E as <- <-.
    exists (sample_lead (Some 91) None None None). eexists.
    split; [reflexivity|].
    assert (Hne : lit "Outside 90-minute radius" :: nil <> []) by discriminate.
    split; [exact Hne|].
    exact (proj1 (proj2 (proj2 (proj2 H))) Hne).
  - pose proof (reject_or_graduated ascii_only composition_landlord) as H.
    destruct (apply_scoring ascii_only _) as [e|[l' r]] eqn:E;
      [destruct H|].
    vm_compute in E. injection E as <- <-.
    exists composition_landlord. eexists.
    split; [reflexivity|]. split; [reflexivity|].
    destruct (proj2 (proj2 (proj2 (proj2 H))) eq_refl)
      as (Hp & Hf & Hb & Hl).
    split; [exact Hp|]. split; [exact Hf|]. split; [exact Hb|].
    split; [exact Hl|]. repeat split.
Defined.

(** *** Totality *)

Lemma bill_after_eq (U : Unicode) (l : LeadInput) :
  bill_after U l = ret (bill_estimate U l).
Proof.
  unfold bill_after. rewrite normalize_monthly_bill_eq. cbn [bind ret].
  now rewrite normalized_monthly_bill.
Qed.

Lemma normalized_unset (U : Unicode) (l : LeadInput) :
  bill_estimate U l = None -> normalized U l = l.
Proof. unfold normalized. intros ->. now destruct (monthly_bill l). Qed.

(** C2: scoring returns for every lead and raises nothing, whatever is
    absent, empty or malformed: so do the endpoint and the bill normalizer,
    a bill text that cannot be read leaves the lead as it was, and a lead
    with every field absent, or every text empty, or every field at its
    declared default, gets the neutral score. *)
Theorem scoring_never_raises (U : Unicode) (l : LeadInput) :
  (exists l' r, apply_scoring U l = inr (l', r)) /\
  (exists r, score_lead U l = inr r) /\
  returns (normalize_monthly_bill U l)
    (fun l' => monthly_bill l' = bill_estimate U l) /\
  (forall raw,
     monthly_bill l = None -> monthly_bill_raw l = Some raw ->
     estimate_of_raw U raw = None ->
     normalize_monthly_bill U l = inr l) /\
  apply_scoring U absent_lead = inr (absent_lead, neutral_score) /\
  apply_scoring U blank_lead = inr (blank_lead, neutral_score) /\
  apply_scoring U empty_lead = inr (empty_lead, neutral_score).
Proof.
  split; [|split; [|split; [|split; [|split; [|split]]]]].
  - rewrite apply_scoring_eq. eauto.
  - unfold score_lead, enrich_with_property_data.
    rewrite apply_scoring_eq. cbn. eauto.
  - rewrite normalize_monthly_bill_eq. cbn [returns ret].
    apply normalized_monthly_bill.
  - intros raw Hb Hr He. rewrite normalize_monthly_bill_eq.
    unfold ret. f_equal. apply normalized_unset.
    unfold bill_estimate. rewrite Hb, Hr. now destruct raw.
  - vm_compute. reflexivity.
  - vm_compute. reflexivity.
  - vm_compute. reflexivity.
Qed.

Lemma scoring_never_raises_witness :
  estimate_of_raw ascii_only (lit "abc") = None /\
  normalize_monthly_bill ascii_only (lead_with_raw (lit "abc"))
    = inr (lead_with_raw (lit "abc")).
Proof.
  assert (He : estimate_of_raw ascii_only (lit "abc") = None)
    by (vm_compute; reflexivity).
  split; [exact He|].
  destruct (scoring_never_raises ascii_only (lead_with_raw (lit "abc")))
    as (_ & _ & _ & H & _).
  exact (H (lit "abc") eq_refl eq_refl He).
Defined.

(** *** Bill normalization *)

Lemma clean_bill_eq (raw : str) :
  clean_bill raw =
    map (fun c => if (c =? en_dash)%N then hyphen else c)
      (filter (fun c => negb (c =? dollar)%N && negb (c =? space)%N) raw).
Proof.
  unfold clean_bill, replace.
  induction raw as [|c raw IH]; [reflexivity|].
  cbn [flat_map filter]. 
  destruct (c =? dollar)%N eqn:Ed.
  - cbn. exact IH.
  - cbn [app flat_map]. destruct (c =? space)%N eqn:Es.
    + cbn. exact IH.
    + cbn [app flat_map negb andb map].
      destruct (c =? en_dash)%N; cbn [app]; f_equal; exact IH.
Qed.

Lemma contains_nonempty (c : char) (s : str) :
  contains [c] (clean_bill s) = true -> s <> [].
Proof. destruct s; [discriminate|]. intros _ H; discriminate. Qed.

Lemma bill_after_raw (U : Unicode) (l : LeadInput) (raw : str) :
  monthly_bill l = None -> monthly_bill_raw l = Some raw -> raw <> [] ->
  bill_after U l = ret (estimate_of_raw U raw).
Proof.
  intros Hb Hr Hne. rewrite bill_after_eq. unfold bill_estimate.
  rewrite Hb, Hr. destruct raw; [congruence|reflexivity].
Qed.

Lemma bill_after_mean (U : Unicode) (l : LeadInput) (raw : str)
    (low high : float) :
  monthly_bill l = None -> monthly_bill_raw l = Some raw ->
  contains [hyphen] (clean_bill raw) = true ->
  parse_float U (nth 0 (split (clean_bill raw) hyphen) []) = Some low ->
  parse_float U (nth 1 (split (clean_bill raw) hyphen) []) = Some high ->
  bill_after U l = ret (Some (mean low high)).
Proof.
  intros Hb Hr Hc H0 H1.
  rewrite (bill_after_raw U l raw Hb Hr (contains_nonempty _ _ Hc)).
  unfold estimate_of_raw. cbv zeta. now rewrite Hc, H0, H1.
Qed.

Lemma bill_after_fall_through (U : Unicode) (l : LeadInput) (raw : str) :
  monthly_bill l = None -> monthly_bill_raw l = Some raw ->
  contains [hyphen] (clean_bill raw) = true ->
  parse_float U (nth 0 (split (clean_bill raw) hyphen) []) = None \/
  parse_float U (nth 1 (split (clean_bill raw) hyphen) []) = None ->
  bill_after U l = ret (parse_float U (clean_bill raw)).
Proof.
  intros Hb Hr Hc H.
  rewrite (bill_after_raw U l raw Hb Hr (contains_nonempty _ _ Hc)).
  unfold estimate_of_raw. cbv zeta. rewrite Hc.
  destruct H as [-> | ->]; [reflexivity|].
  now destruct (parse_float U _).
Qed.

(** C5: a numeric bill already present is kept and the raw text ignored;
    otherwise the raw text is cleaned of ['$'] and spaces, its en-dashes
    made hyphens, and read: with a hyphen, as the mean of its first two
    parts when both parse, else as a single value; with nothing readable the
    bill stays unset. ["$200–$400"] gives 300.0, ["250"] gives 250.0, and
    [""], an absent text and ["abc"] leave the bill unset. *)
Theorem bill_normalization (U : Unicode) :
  (forall l, bill_after U l = ret (bill_estimate U l)) /\
  (forall l b,
     monthly_bill l = Some b -> normalize_monthly_bill U l = ret l) /\
  (forall l,
     monthly_bill l = None ->
     monthly_bill_raw l = None \/ monthly_bill_raw l = Some [] ->
     normalize_monthly_bill U l = ret l) /\
  (forall raw,
     clean_bill raw =
       map (fun c => if (c =? en_dash)%N then hyphen else c)
         (filter (fun c => negb (c =? dollar)%N && negb (c =? space)%N)
            raw)) /\
  (forall l raw low high,
     monthly_bill l = None -> monthly_bill_raw l = Some raw ->
     contains [hyphen] (clean_bill raw) = true ->
     parse_float U (nth 0 (split (clean_bill raw) hyphen) []) = Some low ->
     parse_float U (nth 1 (split (clean_bill raw) hyphen) []) = Some high ->
     bill_after U l = ret (Some (mean low high))) /\
  (forall l raw,
     monthly_bill l = None -> monthly_bill_raw l = Some raw ->
     contains [hyphen] (clean_bill raw) = true ->
     parse_float U (nth 0 (split (clean_bill raw) hyphen) []) = None \/
     parse_float U (nth 1 (split (clean_bill raw) hyphen) []) = None ->
     bill_after U l = ret (parse_float U (clean_bill raw))) /\
  (forall l raw,
     monthly_bill l = None -> monthly_bill_raw l = Some raw -> raw <> [] ->
     contains [hyphen] (clean_bill raw) = false ->
     bill_after U l = ret (parse_float U (clean_bill raw))) /\
  bill_after U (lead_with_raw two_to_four_hundred) = ret (Some 300%float) /\
  bill_after U (lead_with_raw (lit "250")) = ret (Some 250%float) /\
  bill_after U (lead_with_raw []) = ret None /\
  bill_after U absent_lead = ret None /\
  bill_after U (lead_with_raw (lit "abc")) = ret None.
Proof.
  split; [exact (bill_after_eq U)|].
  split.
  { intros l b Hb. rewrite normalize_monthly_bill_eq. f_equal.
    unfold normalized. now rewrite Hb. }
  split.
  { intros l Hb Hr. rewrite normalize_monthly_bill_eq. f_equal.
    apply normalized_unset. unfold bill_estimate. rewrite Hb.
    now destruct Hr as [-> | ->]. }
  split; [exact clean_bill_eq|].
  split; [exact (bill_after_mean U)|].
  split; [exact (bill_after_fall_through U)|].
  split.
  { intros l raw Hb Hr Hne Hc.
    rewrite (bill_after_raw U l raw Hb Hr Hne).
    unfold estimate_of_raw. cbv zeta. now rewrite Hc. }
  repeat split; vm_compute; reflexivity.
Qed.

Lemma bill_normalization_witness :
  bill_after ascii_only (lead_with_raw two_to_four_hundred)
    = ret (Some (mean 200 400)) /\
  bill_after ascii_only (lead_with_raw (lit "2x-400"))
    = ret (parse_float ascii_only (lit "2x-400")) /\
  bill_after ascii_only (lead_with_raw (lit "250"))
    = ret (parse_float ascii_only (lit "250")) /\
  normalize_monthly_bill ascii_only (sample_lead None None (Some (lit "7")) (Some 120%float))
    = ret (sample_lead None None (Some (lit "7")) (Some 120%float)) /\
  normalize_monthly_bill ascii_only absent_lead = ret absent_lead.
Proof.
  destruct (bill_normalization ascii_only)
    as (_ & Hkeep & Habsent & _ & Hmean & Hfall & Hsingle & _).
  split.
  { apply (Hmean (lead_with_raw two_to_four_hundred) two_to_four_hundred);
      vm_compute; reflexivity. }
  split.
  { apply (Hfall (lead_with_raw (lit "2x-400")) (lit "2x-400"));
      try reflexivity.
    left. vm_compute. reflexivity. }
  split.
  { apply (Hsingle (lead_with_raw (lit "250")) (lit "250"));
      try reflexivity. discriminate. }
  split.
  { apply (Hkeep _ 120%float). reflexivity. }
  apply Habsent; [reflexivity | left; reflexivity].
Defined.

(** *** Hard disqualification *)

Lemma str_eqb_eq (a b : str) : str_eqb a b = true <-> a = b.
Proof.
  revert b. induction a as [|c a IH]; intros [|d b]; simpl;
    try (split; [discriminate | congruence]); [tauto|].
  rewrite andb_true_iff, N.eqb_eq, IH. split.
  - intros [-> ->]. reflexivity.
  - intros H. injection H as -> ->. auto.
Qed.

Lemma distinct_NoDup (l : list str) : distinct l = true -> NoDup l.
Proof.
  induction l as [|s l IH]; simpl; [constructor|].
  rewrite andb_true_iff, negb_true_iff. intros [Hs Hl].
  constructor; [|auto].
  intro Hin. assert (existsb (str_eqb s) l = true); [|congruence].
  apply existsb_exists. exists s. split; [exact Hin|].
  now apply str_eqb_eq.
Qed.

Lemma hard_rules_labels (U : Unicode) : NoDup (map snd (hard_rules U)).
Proof. apply distinct_NoDup. vm_compute. reflexivity. Qed.

Lemma fire_labels (rules : list rule) (l : LeadInput) (s : str) :
  In s (fire rules l) -> In s (map snd rules).
Proof.
  unfold fire. induction rules as [|[q t] rules IH]; simpl; [tauto|].
  destruct (q l); simpl; tauto.
Qed.

(** With distinct labels, a label is reported exactly when its own rule
    holds. *)
Lemma fire_In (rules : list rule) (l : LeadInput) (p : LeadInput -> bool)
    (s : str) :
  NoDup (map snd rules) -> In (p, s) rules ->
  (In s (fire rules l) <-> p l = true).
Proof.
  induction rules as [|[q t] rules IH]; simpl; [tauto|].
  intros Hnd [Heq | Hin]; inversion Hnd as [|? ? Hnot Hnd']; subst.
  - injection Heq as -> ->. unfold fire. simpl.
    destruct (p l) eqn:E; simpl.
    + tauto.
    + split; [|discriminate]. intro H. exfalso. apply Hnot.
      exact (fire_labels rules l s H).
  - specialize (IH Hnd' Hin). unfold fire in *. simpl.
    destruct (q l); simpl; [|exact IH].
    rewrite <- IH. split; [|tauto].
    intros [-> | H]; [|exact H].
    exfalso. apply Hnot. apply in_map_iff. exists (p, s). auto.
Qed.

(** The rules are tested one by one, none looking at the others: taking
    them in another order reports the same reasons, in another order. *)
Lemma fire_Permutation (rules rules' : list rule) (l : LeadInput) :
  Permutation rules rules' -> Permutation (fire rules l) (fire rules' l).
Proof.
  unfold fire. induction 1 as [|[q t] ? ? ? IH|[q t] [q' t'] ?|]; simpl.
  - constructor.
  - destruct (q l); simpl; auto.
  - destruct (q l), (q' l); simpl; auto. constructor.
  - eapply perm_trans; eauto.
Qed.

Lemma outside_radius_iff (U : Unicode) (l : LeadInput) :
  In outside_radius (hard_rejects U l) <->
  exists d, distance_minutes l = Some d /\ 90 < d.
Proof.
  unfold hard_rejects.
  rewrite (fire_In _ l (far_away) outside_radius (hard_rules_labels U))
    by (simpl; auto).
  unfold far_away. destruct (distance_minutes l) as [d|].
  - rewrite Z.ltb_lt. split; [eauto|]. intros (d' & E & H).
    now injection E as ->.
  - split; [discriminate|]. intros (d' & E & _). discriminate.
Qed.

Lemma roof_too_old_iff (U : Unicode) (l : LeadInput) :
  In roof_too_old (hard_rejects U l) <->
  exists a, roof_age_years l = Some a /\ 15 <= a.
Proof.
  unfold hard_rejects.
  rewrite (fire_In _ l (old_roof) roof_too_old (hard_rules_labels U))
    by (simpl; auto 10).
  unfold old_roof. destruct (roof_age_years l) as [a|].
  - rewrite Z.leb_le. split; [eauto|]. intros (a' & E & H).
    now injection E as ->.
  - split; [discriminate|]. intros (a' & E & _). discriminate.
Qed.

(** Six of the rules look at fields normalization leaves alone. *)
Lemma hard_rule_normalized (U : Unicode) (l : LeadInput)
    (p : LeadInput -> bool) (s : str) :
  In (p, s) (hard_rules U) -> s <> bill_too_low ->
  p (normalized U l) = p l.
Proof.
  intros Hin Hs. simpl in Hin.
  destruct Hin as [E|[E|[E|[E|[E|[E|[E|[]]]]]]]];
    injection E as <- <-;
    try (exfalso; apply Hs; reflexivity);
    destruct (normalized_cases U l) as [-> | (x & ->)]; reflexivity.
Qed.

(** The bill rule looks at the bill normalization leaves. *)
Lemma low_bill_normalized (U : Unicode) (l : LeadInput) :
  low_bill (normalized U l) = true <->
  exists b, bill_estimate U l = Some b /\ (b <? 150)%float = true.
Proof.
  unfold low_bill. rewrite normalized_monthly_bill.
  destruct (bill_estimate U l) as [b|].
  - split; [eauto|]. intros (b' & E & H). now injection E as ->.
  - split; [discriminate|]. intros (b' & E & _). discriminate.
Qed.

(** C4: the reject reasons are exactly the labels of the hard rules that
    hold of the lead given, the bill rule looking at the bill normalization
    leaves; each rule is tested on its own, so that taking the rules in
    another order gives the same reasons; the distance rule holds exactly
    above 90 minutes (91 rejects, 90 does not) and the roof-age rule exactly
    from 15 years (15 rejects, 14 does not and adds nothing to the property
    score). *)
Theorem hard_disqualification (U : Unicode) (l : LeadInput) :
  returns (apply_scoring U l) (fun '(l', r) =>
    l' = normalized U l /\
    reject_reasons r = fire (hard_rules U) (normalized U l) /\
    (forall p s, In (p, s) (hard_rules U) ->
       (In s (reject_reasons r) <-> p (normalized U l) = true)) /\
    (forall p s, In (p, s) (hard_rules U) -> s <> bill_too_low ->
       (In s (reject_reasons r) <-> p l = true)) /\
    (In bill_too_low (reject_reasons r) <->
       exists b, bill_estimate U l = Some b /\ (b <? 150)%float = true) /\
    (forall rules, Permutation (hard_rules U) rules ->
       Permutation (reject_reasons r) (fire rules (normalized U l))) /\
    (In outside_radius (reject_reasons r) <->
       exists d, distance_minutes l = Some d /\ 90 < d) /\
    (In roof_too_old (reject_reasons r) <->
       exists a, roof_age_years l = Some a /\ 15 <= a) /\
    (distance_minutes l = Some 91 -> In outside_radius (reject_reasons r)) /\
    (distance_minutes l = Some 90 ->
       ~ In outside_radius (reject_reasons r)) /\
    (roof_age_years l = Some 15 -> In roof_too_old (reject_reasons r)) /\
    (roof_age_years l = Some 14 ->
       ~ In roof_too_old (reject_reasons r) /\
       roof_age_points l = 0 /\
       (reject_reasons r = [] ->
        property_score r =
          clamp (50 + roof_material_points U l + 0 + shading_points U l)))).
Proof.
  rewrite apply_scoring_eq. cbn [returns ret].
  rewrite score_reject_reasons.
  destruct (normalize_monthly_bill_frame U l)
    as (_&_&_&_&_&_&_&_&_&_&_&_&Hage&_&_&Hdist&_).
  set (l' := normalized U l) in *.
  pose proof (outside_radius_iff U l') as Hout. rewrite Hdist in Hout.
  pose proof (roof_too_old_iff U l') as Hold. rewrite Hage in Hold.
  assert (Hall : forall p s, In (p, s) (hard_rules U) ->
            (In s (hard_rejects U l') <-> p l' = true)).
  { intros p s Hin. apply fire_In; [apply hard_rules_labels | exact Hin]. }
  split; [reflexivity|]. split; [reflexivity|].
  split; [exact Hall|].
  split.
  { intros p s Hin Hs. rewrite (Hall p s Hin). unfold l'.
    now rewrite (hard_rule_normalized U l p s Hin Hs). }
  split.
  { rewrite (Hall low_bill bill_too_low) by (simpl; auto 10).
    apply low_bill_normalized. }
  split; [intros rules Hp; now apply fire_Permutation|].
  split; [exact Hout|]. split; [exact Hold|].
  split; [intro E; apply Hout; exists 91; split; [exact E | lia]|].
  split.
  { intros E H. apply Hout in H. destruct H as (d & E' & H).
    rewrite E in E'. injection E' as <-. lia. }
  split; [intro E; apply Hold; exists 15; split; [exact E | lia]|].
  intro E. split.
  { intro H. apply Hold in H. destruct H as (a & E' & H).
    rewrite E in E'. injection E' as <-. lia. }
  assert (Hp : roof_age_points l = 0).
  { unfold roof_age_points. rewrite E. reflexivity. }
  split; [exact Hp|].
  intro H. rewrite (score_graduated _ _ H).
  destruct (graduated_of_input U l) as (Hprop & _). fold l' in Hprop.
  rewrite Hprop. unfold graduated_property. now rewrite Hp.
Qed.

Lemma hard_disqualification_witness :
  (exists l' r,
     apply_scoring ascii_only (sample_lead (Some 91) (Some 15) None None)
       = inr (l', r) /\
     In outside_radius (reject_reasons r) /\
     In roof_too_old (reject_reasons r) /\
     (In outside_radius (reject_reasons r) <-> far_away l' = true) /\
     Permutation (reject_reasons r)
       (fire (rev (hard_rules ascii_only)) l')) /\
  (exists l' r,
     apply_scoring ascii_only (sample_lead (Some 90) (Some 14) None None)
       = inr (l', r) /\
     ~ In outside_radius (reject_reasons r) /\
     ~ In roof_too_old (reject_reasons r) /\
     roof_age_points l' = 0 /\
     property_score r =
       clamp (50 + roof_material_points ascii_only l' + 0
              + shading_points ascii_only l')) /\
  (exists l' r,
     apply_scoring ascii_only five_faults = inr (l', r) /\
     reject_reasons r
       = [lit "Wood shake roof"; excessive_shading; bill_too_low;
          hoa_forbids; credit_too_low] /\
     wood_shake ascii_only five_faults = true /\
     In (lit "Wood shake roof") (reject_reasons r) /\
     bill_estimate ascii_only five_faults = Some 100%float /\
     In bill_too_low (reject_reasons r)).
Proof.
  split; [|split].
  - pose proof (hard_disqualification ascii_only
                  (sample_lead (Some 91) (Some 15) None None)) as H.
    destruct (apply_scoring ascii_only _) as [e|[l' r]]; [destruct H|].
    destruct H as (El & _ & Hall & _ & _ & Hperm & _ & _ & H91 & _ & H15 & _).
    exists l', r. split; [reflexivity|].
    split; [exact (H91 eq_refl)|]. split; [exact (H15 eq_refl)|].
    rewrite El.
    split; [apply (Hall far_away outside_radius); simpl; auto|].
    apply Hperm. apply Permutation_rev.
  - pose proof (hard_disqualification ascii_only
                  (sample_lead (Some 90) (Some 14) None None)) as H.
    destruct (apply_scoring ascii_only _) as [e|[l' r]] eqn:E;
      [destruct H|].
    destruct H as (El & _ & _ & _ & _ & _ & _ & _ & _ & H90 & _ & H14).
    destruct (H14 eq_refl) as (Hn & Hp & Hs).
    vm_compute in E. injection E as <- <-.
    eexists. eexists. split; [reflexivity|].
    split; [exact (H90 eq_refl)|]. split; [exact Hn|].
    split; [exact Hp|]. exact (Hs eq_refl).
  - pose proof (hard_disqualification ascii_only five_faults) as H.
    destruct (apply_scoring ascii_only _) as [e|[l' r]] eqn:E;
      [destruct H|].
    destruct H as (_ & _ & _ & Hin & Hbill & _).
    vm_compute in E. injection E as <- <-.
    eexists. eexists. split; [reflexivity|]. split; [reflexivity|].
    assert (Hw : wood_shake ascii_only five_faults = true)
      by (vm_compute; reflexivity).
    split; [exact Hw|].
    split.
    { apply (Hin (wood_shake ascii_only) (lit "Wood shake roof"));
        [simpl; auto | discriminate | exact Hw]. }
    assert (Hb : bill_estimate ascii_only five_faults = Some 100%float)
      by (vm_compute; reflexivity).
    split; [exact Hb|].
    apply Hbill. exists 100%float. split; [exact Hb | reflexivity].
Defined.

(** *** Composite tier *)

(** The weights are the values Python reads in the literals of the
    program. *)
Example weight_literals (U : Unicode) :
  float_of_str U (lit "0.4") = ret f0_4 /\
  float_of_str U (lit "0.35") = ret f0_35 /\
  float_of_str U (lit "0.25") = ret f0_25.
Proof. repeat split; vm_compute; reflexivity. Qed.

Lemma sums_In (base x y z : Z) (a b c : list Z) :
  In x a -> In y b -> In z c -> In (clamp (base + x + y + z)) (sums base a b c).
Proof.
  intros Hx Hy Hz. unfold sums.
  apply in_flat_map. exists x. split; [exact Hx|].
  apply in_flat_map. exists y. split; [exact Hy|].
  apply in_map_iff. exists z. split; [reflexivity | exact Hz].
Qed.

Lemma graduated_property_values (U : Unicode) (l : LeadInput) :
  In (graduated_property U l) property_values.
Proof.
  unfold graduated_property, property_values. apply sums_In.
  - unfold roof_material_points. destruct (roof_type l); [|simpl; auto].
    cbv zeta. destruct (_ || _); [simpl; auto|].
    destruct (_ || _); simpl; auto.
  - unfold roof_age_points. destruct (roof_age_years l) as [a|]; [|simpl; auto].
    destruct (a <=? 5), (a <=? 10); simpl; auto.
  - unfold shading_points. cbv zeta.
    destruct (opt_eqb _ _); [simpl; auto|].
    destruct (opt_eqb _ _); simpl; auto.
Qed.

Lemma graduated_financial_values (U : Unicode) (l : LeadInput) :
  In (graduated_financial U l) financial_values.
Proof.
  unfold graduated_financial, financial_values. apply sums_In.
  - unfold bill_points. destruct (monthly_bill l) as [b|]; [|simpl; auto].
    destruct (400 <=? b)%float, (200 <=? b)%float, (150 <=? b)%float;
      simpl; auto.
  - unfold true_up_points. cbv zeta.
    destruct (contains _ _); [simpl; auto|].
    destruct (contains _ _); simpl; auto.
  - unfold credit_points. cbv zeta.
    destruct (startswith _ _); [simpl; auto|].
    destruct (_ || _); simpl; auto.
Qed.

Lemma graduated_behavioral_values (U : Unicode) (l : LeadInput) :
  In (graduated_behavioral U l) behavioral_values.
Proof.
  unfold graduated_behavioral, behavioral_values.
  apply (in_map (fun d => clamp (50 + d))).
  unfold decision, decision_rules. cbn [find fst snd].
  destruct (_ || _); [simpl; auto|].
  destruct (_ && _); [simpl; auto|].
  destruct (contains _ _); [simpl; auto|].
  destruct (contains _ _); simpl; auto 6.
Qed.

(** On every combination of sub-scores the engine can produce, rounding in
    binary64 does not move the weighted total across a threshold. *)
Lemma tiers_agree_reachable :
  tiers_agree_on property_values financial_values behavioral_values
    landlord_values = true.
Proof. vm_compute. reflexivity. Qed.

Lemma tiers_agree_on_In (ps fs bs lss : list Z) (p f b ls : Z) :
  tiers_agree_on ps fs bs lss = true ->
  In p ps -> In f fs -> In b bs -> In ls lss ->
  tiers_agree p f b ls = true.
Proof.
  unfold tiers_agree_on. intros H Hp Hf Hb Hls.
  rewrite forallb_forall in H. specialize (H p Hp).
  rewrite forallb_forall in H. specialize (H f Hf).
  rewrite forallb_forall in H. specialize (H b Hb).
  rewrite forallb_forall in H. exact (H ls Hls).
Qed.

Lemma graduated_tier_exact (U : Unicode) (l : LeadInput) :
  ai_tier (graduated U l) =
    composite_tier (graduated_property U l) (graduated_financial U l)
      (graduated_behavioral U l) (landlord_score_of l).
Proof.
  cbn [graduated ai_tier]. apply str_eqb_eq.
  apply (tiers_agree_on_In _ _ _ _ _ _ _ _ tiers_agree_reachable).
  - apply graduated_property_values.
  - apply graduated_financial_values.
  - apply graduated_behavioral_values.
  - apply landlord_score_of_range.
Qed.

(** C6: on the path without reject reasons the sub-scores are the
    graduated ones of the lead given and the tier is the one the weighted
    sum 0.40 property + 0.35 financial + 0.25 behavioral, plus 15 when the
    landlord score is at least 75, gives under the thresholds 90, 75 and 60,
    also when that tier is REJECT; sub-scores 80, 80, 80 with a landlord
    score under 75 weigh 80 and give QUALIFIED. *)
Theorem composite_tier_exact (U : Unicode) (l : LeadInput) :
  returns (apply_scoring U l) (fun '(l', r) =>
    l' = normalized U l /\
    reject_reasons r = hard_rejects U (normalized U l) /\
    (reject_reasons r = [] ->
     property_score r = graduated_property U l /\
     financial_score r = graduated_financial U (normalized U l) /\
     behavioral_score r = graduated_behavioral U l /\
     landlord_score r = landlord_score_of l /\
     ai_tier r =
       composite_tier (property_score r) (financial_score r)
         (behavioral_score r) (landlord_score r) /\
     ai_tier r =
       composite_tier (graduated_property U l)
         (graduated_financial U (normalized U l))
         (graduated_behavioral U l) (landlord_score_of l))) /\
  (forall ls, ls < 75 ->
     (weighted_sum 80 80 80 ls == 80 # 1)%Q /\
     composite_tier 80 80 80 ls = lit "QUALIFIED" /\
     total_weighted 80 80 80 ls = 80%float /\
     tier_of (total_weighted 80 80 80 ls) = lit "QUALIFIED") /\
  apply_scoring U absent_lead = inr (absent_lead, neutral_score) /\
  (weighted_sum 50 40 50 0 == 465 # 10)%Q.
Proof.
  split; [|split; [|split]].
  - rewrite apply_scoring_eq. cbn [returns ret].
    split; [reflexivity|].
    rewrite score_reject_reasons. split; [reflexivity|]. intro H.
    rewrite (score_graduated _ _ H).
    pose proof (graduated_tier_exact U (normalized U l)) as Ht.
    destruct (graduated_of_input U l) as (Hp & Hf & Hb & Hl).
    split; [exact Hp|]. split; [exact Hf|]. split; [exact Hb|].
    split; [exact Hl|]. split.
    + rewrite Ht. cbn [graduated property_score financial_score
                         behavioral_score landlord_score]. reflexivity.
    + rewrite Ht.
      now rewrite graduated_property_normalized,
        graduated_behavioral_normalized, landlord_score_of_normalized.
  - intros ls Hls.
    unfold composite_tier, weighted_sum, total_weighted.
    replace (75 <=? ls) with false by (symmetry; apply Z.leb_gt; exact Hls).
    repeat split; vm_compute; reflexivity.
  - vm_compute. reflexivity.
  - vm_compute. reflexivity.
Qed.

Lemma composite_tier_exact_witness :
  (exists l' r,
     apply_scoring ascii_only composition_landlord = inr (l', r) /\
     reject_reasons r = [] /\
     property_score r = 95 /\ financial_score r = 80 /\
     behavioral_score r = 50 /\ landlord_score r = 75 /\
     ai_tier r = composite_tier 95 80 50 75 /\
     (weighted_sum 95 80 50 75 == 935 # 10)%Q /\
     ai_tier r = lit "HOT") /\
  (exists l' r,
     apply_scoring ascii_only absent_lead = inr (l', r) /\
     reject_reasons r = [] /\
     ai_tier r =
       composite_tier (property_score r) (financial_score r)
         (behavioral_score r) (landlord_score r) /\
     ai_tier r = lit "REJECT") /\
  total_weighted 80 80 80 60 = 80%float /\
  tier_of (total_weighted 80 80 80 60) = lit "QUALIFIED".
Proof.
  split; [|split].
  - destruct (composite_tier_exact ascii_only composition_landlord)
      as (H & _).
    destruct (apply_scoring ascii_only _) as [e|[l' r]] eqn:E;
      [destruct H|].
    vm_compute in E. injection E as <- <-.
    destruct H as (_ & _ & H).
    destruct (H eq_refl) as (_ & _ & _ & _ & Ht & _).
    eexists. eexists. split; [reflexivity|].
    do 5 (split; [reflexivity|]).
    split; [exact Ht|]. split; [vm_compute; reflexivity | reflexivity].
  - destruct (composite_tier_exact ascii_only absent_lead)
      as (H & _ & E & _).
    rewrite E in H. cbn [returns] in H. destruct H as (_ & _ & H).
    exists absent_lead, neutral_score. split; [exact E|].
    split; [reflexivity|].
    destruct (H eq_refl) as (_ & _ & _ & _ & Ht & _).
    split; [exact Ht | reflexivity].
  - destruct (composite_tier_exact ascii_only absent_lead)
      as (_ & H80 & _).
    destruct (H80 60) as (_ & _ & Hw & Ht); [lia|]. split; assumption.
Defined.

(** Off the values the engine produces the two can part: 6, 96 and 96 weigh
    exactly 60, and a little less in binary64. *)
Example rounding_off_path :
  composite_tier 6 96 96 0 = lit "NURTURE" /\
  tier_of (total_weighted 6 96 96 0) = lit "REJECT".
Proof. split; vm_compute; reflexivity. Qed.

(** *** What scoring does to the lead *)

(** C7 as stated fails: scoring a lead that has only a raw bill text leaves
    a numeric bill in the lead. *)
Lemma scoring_sets_monthly_bill :
  monthly_bill (lead_with_raw two_to_four_hundred) = None /\
  returns (apply_scoring ascii_only (lead_with_raw two_to_four_hundred))
    (fun '(l', _) => monthly_bill l' = Some 300%float) /\
  ~ (forall U l,
       returns (apply_scoring U l)
         (fun '(l', _) => monthly_bill l' = monthly_bill l)).
Proof.
  split; [reflexivity|]. split; [vm_compute; reflexivity|].
  intro H.
  specialize (H ascii_only (lead_with_raw two_to_four_hundred)).
  vm_compute in H. discriminate H.
Qed.

(** C7, amended: scoring changes no field of the lead but the numeric
    monthly bill; a bill that was present is kept, so the lead is the same,
    and one that was absent becomes the estimate read from the raw text, or
    stays absent when there is none; the score is the rule tables' score of
    that lead. *)
Theorem scoring_frame (U : Unicode) (l : LeadInput) :
  returns (apply_scoring U l) (fun '(l', r) =>
    (name l' = name l /\ email l' = email l /\ phone l' = phone l /\
     address l' = address l /\ city l' = city l /\ state l' = state l /\
     zip l' = zip l /\ source l' = source l /\
     property_type l' = property_type l /\ is_landlord l' = is_landlord l /\
     property_count l' = property_count l /\ roof_type l' = roof_type l /\
     roof_age_years l' = roof_age_years l /\
     shading_level l' = shading_level l /\
     hoa_allows_solar l' = hoa_allows_solar l /\
     distance_minutes l' = distance_minutes l /\
     monthly_bill_raw l' = monthly_bill_raw l /\
     true_up_band l' = true_up_band l /\ credit_band l' = credit_band l /\
     motivation l' = motivation l /\ decision_style l' = decision_style l) /\
    match monthly_bill l with
    | Some b => l' = l
    | None => monthly_bill l' = bill_estimate U l
    end /\
    r = score U l').
Proof.
  rewrite apply_scoring_eq. cbn [returns ret].
  split; [exact (normalize_monthly_bill_frame U l)|].
  split; [|reflexivity].
  destruct (monthly_bill l) as [b|] eqn:E.
  - unfold normalized. now rewrite E.
  - apply normalized_monthly_bill.
Qed.

(** *** Defaults *)

(** C8: with the credit band, the true-up band, the decision style and the
    motivation absent, the defaults match no keyword: the credit rule does
    not reject, the financial score gets nothing for the true-up or the
    credit band, the behavioral score stays at its base with buyer type
    Unknown, and there is no pain point. *)
Theorem defaults_match_no_keyword (U : Unicode) (l : LeadInput) :
  credit_band l = None -> true_up_band l = None ->
  decision_style l = None -> motivation l = None ->
  returns (apply_scoring U l) (fun '(l', r) =>
    low_credit U l' = false /\
    ~ In credit_too_low (reject_reasons r) /\
    true_up_points U l' = 0 /\ credit_points U l' = 0 /\
    decision U l' = (0, lit "Unknown") /\
    buyer_type r = lit "Unknown" /\
    pain_points r = [] /\
    (reject_reasons r = [] ->
     financial_score r = clamp (40 + bill_points l') /\
     behavioral_score r = 50)).
Proof.
  intros Hc Ht Hd Hm. rewrite apply_scoring_eq. cbn [returns ret].
  destruct (normalize_monthly_bill_frame U l)
    as (_&_&_&_&_&_&_&_&_&_&_&_&_&_&_&_&_&Ht'&Hc'&Hm'&Hd').
  set (l' := normalized U l) in *.
  rewrite Hc in Hc'. rewrite Ht in Ht'. rewrite Hd in Hd'. rewrite Hm in Hm'.
  assert (Hlow : low_credit U l' = false)
    by (unfold low_credit; rewrite Hc'; reflexivity).
  assert (Htp : true_up_points U l' = 0)
    by (unfold true_up_points; rewrite Ht'; reflexivity).
  assert (Hcp : credit_points U l' = 0)
    by (unfold credit_points; rewrite Hc'; reflexivity).
  assert (Hdec : decision U l' = (0, lit "Unknown"))
    by (unfold decision; rewrite Hd'; reflexivity).
  assert (Hpp : pain_points_of U l' = [])
    by (unfold pain_points_of; rewrite Hm'; reflexivity).
  split; [exact Hlow|]. rewrite score_reject_reasons.
  split.
  { intro H. unfold hard_rejects in H.
    rewrite (fire_In _ l' (low_credit U) credit_too_low
               (hard_rules_labels U)) in H by (simpl; auto 10).
    congruence. }
  split; [exact Htp|]. split; [exact Hcp|]. split; [exact Hdec|].
  unfold score. destruct (nonempty (hard_rejects U l')) eqn:E.
  - split; [reflexivity|]. split; [reflexivity|].
    intro H. apply nonempty_true in E. contradiction.
  - cbn [graduated buyer_type pain_points financial_score behavioral_score].
    unfold buyer_type_of, graduated_financial, graduated_behavioral.
    rewrite Hdec, Hpp, Htp, Hcp. cbn [fst snd].
    split; [reflexivity|]. split; [reflexivity|]. intros _.
    split; [f_equal; lia | reflexivity].
Qed.

Lemma defaults_match_no_keyword_witness :
  exists l' r,
    apply_scoring ascii_only absent_lead = inr (l', r) /\
    low_credit ascii_only l' = false /\
    ~ In credit_too_low (reject_reasons r) /\
    buyer_type r = lit "Unknown" /\ pain_points r = [] /\
    financial_score r = clamp (40 + bill_points l') /\
    behavioral_score r = 50.
Proof.
  pose proof (defaults_match_no_keyword ascii_only absent_lead
                eq_refl eq_refl eq_refl eq_refl) as H.
  destruct (apply_scoring ascii_only absent_lead) as [e|[l' r]] eqn:E;
    [destruct H|].
  destruct H as (Hlow & Hin & _ & _ & _ & Hb & Hp & Hs).
  exists l', r. split; [reflexivity|].
  split; [exact Hlow|]. split; [exact Hin|].
  split; [exact Hb|]. split; [exact Hp|].
  apply Hs. vm_compute in E. injection E as <- <-. reflexivity.
Defined.

(** *** Idempotence *)

Lemma normalized_id (U : Unicode) (l : LeadInput) :
  already_normalized l = true -> normalized U l = l.
Proof.
  unfold already_normalized, normalized, bill_estimate.
  destruct (monthly_bill l); [reflexivity|].
  destruct (monthly_bill_raw l); [discriminate | reflexivity].
Qed.

(** C9: scoring an already normalized record, whose numeric bill is set
    whenever it has a raw bill text, twice gives the same score both times,
    and leaves the record as it was. *)
Theorem scoring_idempotent (U : Unicode) (l : LeadInput) :
  already_normalized l = true ->
  returns (apply_scoring U l) (fun '(l1, r1) =>
    l1 = l /\
    returns (apply_scoring U l1) (fun '(l2, r2) => l2 = l /\ r2 = r1)).
Proof.
  intro H. rewrite apply_scoring_eq. cbn [returns ret].
  rewrite (normalized_id U l H). split; [reflexivity|].
  rewrite apply_scoring_eq. cbn [returns ret].
  rewrite (normalized_id U l H). split; reflexivity.
Qed.

Lemma scoring_idempotent_witness :
  let l := sample_lead None None (Some two_to_four_hundred)
             (Some 300%float) in
  already_normalized l = true /\
  returns (apply_scoring ascii_only l) (fun '(l1, r1) =>
    l1 = l /\
    returns (apply_scoring ascii_only l1) (fun '(l2, r2) =>
      l2 = l /\ r2 = r1)).
Proof.
  intro l. split; [reflexivity|].
  exact (scoring_idempotent ascii_only l eq_refl).
Defined.

(** Without that condition the second score is still the first one: the
    first call leaves the lead normalized. *)
Lemma scoring_twice (U : Unicode) (l : LeadInput) :
  returns (apply_scoring U l) (fun '(l1, r1) =>
    returns (apply_scoring U l1) (fun '(l2, r2) => l2 = l1 /\ r2 = r1)).
Proof.
  rewrite apply_scoring_eq. cbn [returns ret].
  rewrite apply_scoring_eq. cbn [returns ret].
  rewrite normalized_idem. split; reflexivity.
Qed.

(** *** Bill texts with several hyphens *)

Lemma count_char_contains (c : char) (s : str) :
  (1 <= count_char c s)%nat -> contains [c] s = true.
Proof.
  unfold count_char. induction s as [|d s IH]; simpl; [lia|].
  destruct (c =? d)%N; simpl; [destruct s; reflexivity|].
  intro H. rewrite (IH H). reflexivity.
Qed.

(** C10 as stated fails: in ["-1e-5"] the first two parts are [""] and
    ["1e"], which are no numbers, and the estimate is the whole text read as
    one value, so the part after the second hyphen decides it. *)
Lemma estimate_from_whole_text :
  (2 <= count_char hyphen (clean_bill (lit "-1e-5")))%nat /\
  mean_of_first_two ascii_only (clean_bill (lit "-1e-5")) = None /\
  bill_after ascii_only (lead_with_raw (lit "-1e-5"))
    = ret (Some (-0x1.4f8b588e368f1p-17)%float) /\
  firstn 2 (split (clean_bill (lit "-1e-7")) hyphen)
    = firstn 2 (split (clean_bill (lit "-1e-5")) hyphen) /\
  bill_after ascii_only (lead_with_raw (lit "-1e-7"))
    = ret (Some (-0x1.ad7f29abcaf48p-24)%float) /\
  ~ (forall U raw,
       (2 <= count_char hyphen (clean_bill raw))%nat ->
       bill_after U (lead_with_raw raw)
         = ret (mean_of_first_two U (clean_bill raw))).
Proof.
  split; [vm_compute; lia|].
  split; [vm_compute; reflexivity|].
  split; [vm_compute; reflexivity|].
  split; [vm_compute; reflexivity|].
  split; [vm_compute; reflexivity|].
  intro H. specialize (H ascii_only (lit "-1e-5")).
  assert (Hc : (2 <= count_char hyphen (clean_bill (lit "-1e-5")))%nat)
    by (vm_compute; lia).
  specialize (H Hc). vm_compute in H. discriminate H.
Qed.

(** C10, amended: when the cleaned bill text has two hyphens or more and
    its first two parts both parse as numbers, the estimate is the mean of
    those two and no later part has an effect; when one of the two does not
    parse, the estimate is the whole cleaned text read as a single value. *)
Theorem first_two_segments (U : Unicode) (l : LeadInput) (raw : str) :
  monthly_bill l = None -> monthly_bill_raw l = Some raw ->
  (2 <= count_char hyphen (clean_bill raw))%nat ->
  (forall low high,
     parse_float U (nth 0 (split (clean_bill raw) hyphen) []) = Some low ->
     parse_float U (nth 1 (split (clean_bill raw) hyphen) []) = Some high ->
     bill_after U l = ret (Some (mean low high)) /\
     forall l2 raw2,
       monthly_bill l2 = None -> monthly_bill_raw l2 = Some raw2 ->
       (2 <= count_char hyphen (clean_bill raw2))%nat ->
       firstn 2 (split (clean_bill raw2) hyphen)
         = firstn 2 (split (clean_bill raw) hyphen) ->
       bill_after U l2 = bill_after U l) /\
  (parse_float U (nth 0 (split (clean_bill raw) hyphen) []) = None \/
   parse_float U (nth 1 (split (clean_bill raw) hyphen) []) = None ->
   bill_after U l = ret (parse_float U (clean_bill raw))).
Proof.
  intros Hb Hr Hn.
  pose proof (bill_after_mean U) as Hmean.
  pose proof (bill_after_fall_through U) as Hfall.
  assert (Hc : contains [hyphen] (clean_bill raw) = true)
    by (apply count_char_contains; lia).
  split; [|intro H; exact (Hfall l raw Hb Hr Hc H)].
  intros low high H0 H1.
  assert (E : bill_after U l = ret (Some (mean low high)))
    by exact (Hmean l raw low high Hb Hr Hc H0 H1).
  split; [exact E|].
  intros l2 raw2 Hb2 Hr2 Hn2 Hparts. rewrite E.
  assert (Hc2 : contains [hyphen] (clean_bill raw2) = true)
    by (apply count_char_contains; lia).
  destruct (split_contains _ _ Hc) as (p0 & p1 & ps & Es).
  destruct (split_contains _ _ Hc2) as (q0 & q1 & qs & Es2).
  rewrite Es in H0, H1, Hparts. rewrite Es2 in Hparts.
  cbn [firstn nth] in *. injection Hparts as -> ->.
  apply (Hmean l2 raw2 low high Hb2 Hr2 Hc2); rewrite Es2; assumption.
Qed.

Lemma first_two_segments_witness :
  bill_after ascii_only (lead_with_raw (lit "100-200-300"))
    = ret (Some (mean 100 200)) /\
  bill_after ascii_only (lead_with_raw (lit "100-200-999"))
    = bill_after ascii_only (lead_with_raw (lit "100-200-300")) /\
  bill_after ascii_only (lead_with_raw (lit "-1e-5"))
    = ret (parse_float ascii_only (clean_bill (lit "-1e-5"))).
Proof.
  assert (Hn : forall s, (2 <=? count_char hyphen (clean_bill s))%nat = true ->
               (2 <= count_char hyphen (clean_bill s))%nat)
    by (intros s H; now apply Nat.leb_le).
  destruct (first_two_segments ascii_only
              (lead_with_raw (lit "100-200-300")) (lit "100-200-300")
              eq_refl eq_refl (Hn (lit "100-200-300") eq_refl)) as (H & _).
  destruct (H 100%float 200%float) as (Hm & Hsame);
    [vm_compute; reflexivity | vm_compute; reflexivity |].
  split; [exact Hm|].
  split.
  { apply (Hsame (lead_with_raw (lit "100-200-999")) (lit "100-200-999"));
      try reflexivity; exact (Hn (lit "100-200-999") eq_refl). }
  destruct (first_two_segments ascii_only
              (lead_with_raw (lit "-1e-5")) (lit "-1e-5")
              eq_refl eq_refl (Hn (lit "-1e-5") eq_refl)) as (_ & Hf).
  apply Hf. left. vm_compute. reflexivity.
Defined.

(** ** Further properties of the program *)

(** *** Rule tables with distinct labels *)

Section Select.

Variable A : Type.
Variable a : A.

Let select (rules : list ((A -> bool) * str)) : list str :=
  map snd (filter (fun r => fst r a) rules).

Lemma select_labels (rules : list ((A -> bool) * str)) (s : str) :
  In s (select rules) -> In s (map snd rules).
Proof.
  unfold select. induction rules as [|[q t] rules IH]; simpl; [tauto|].
  destruct (q a); simpl; tauto.
Qed.

Lemma select_In (rules : list ((A -> bool) * str)) (p : A -> bool) (s : str) :
  NoDup (map snd rules) -> In (p, s) rules ->
  (In s (select rules) <-> p a = true).
Proof.
  unfold select.
  induction rules as [|[q t] rules IH]; simpl; [tauto|].
  intros Hnd [Heq | Hin]; inversion Hnd as [|? ? Hnot Hnd']; subst.
  - injection Heq as -> ->.
    destruct (p a) eqn:E; simpl; [tauto|].
    split; [|discriminate]. intro H. exfalso. apply Hnot.
    exact (select_labels rules s H).
  - specialize (IH Hnd' Hin).
    destruct (q a); simpl; [|exact IH].
    rewrite <- IH. split; [|tauto].
    intros [-> | H]; [|exact H].
    exfalso. apply Hnot. apply in_map_iff. exists (p, s). auto.
Qed.

Lemma select_NoDup (rules : list ((A -> bool) * str)) :
  NoDup (map snd rules) -> NoDup (select rules).
Proof.
  unfold select.
  induction rules as [|[q t] rules IH]; simpl; [constructor|].
  intro Hnd. inversion Hnd as [|? ? Hnot Hnd']; subst.
  destruct (q a); simpl; [|auto].
  constructor; [|auto]. intro H. apply Hnot.
  exact (select_labels rules t H).
Qed.

Lemma mem_In (s : str) (l : list str) : mem s l = true <-> In s l.
Proof.
  unfold mem. rewrite existsb_exists. split.
  - intros (t & Hin & E). apply str_eqb_eq in E. now subst.
  - intro H. exists s. split; [exact H|]. now apply str_eqb_eq.
Qed.

(** The labels selected are the labels of the table, in its order, with
    those of the rules that do not hold left out. *)
Lemma select_ordered (rules : list ((A -> bool) * str)) :
  NoDup (map snd rules) ->
  select rules = filter (fun s => mem s (select rules)) (map snd rules).
Proof.
  unfold select.
  induction rules as [|[q t] rules IH]; simpl; [reflexivity|].
  intro Hnd. inversion Hnd as [|? ? Hnot Hnd']; subst.
  specialize (IH Hnd').
  destruct (q a) eqn:E; cbn [map snd filter].
  - replace (mem t (t :: _)) with true
      by (symmetry; apply mem_In; left; reflexivity).
    f_equal. rewrite IH at 1. apply filter_ext_in.
    intros s Hs. unfold mem. cbn [existsb].
    destruct (str_eqb s t) eqn:Est; [|reflexivity].
    apply str_eqb_eq in Est. subst. contradiction.
  - destruct (mem t _) eqn:Em; [|exact IH].
    apply mem_In in Em. exfalso. apply Hnot.
    exact (select_labels rules t Em).
Qed.

End Select.

Lemma hard_labels_eq (U : Unicode) : map snd (hard_rules U) = hard_labels.
Proof. reflexivity. Qed.

Lemma pain_tags_eq : map snd pain_rules = pain_tags.
Proof. reflexivity. Qed.

Lemma pain_tags_distinct : NoDup (map snd pain_rules).
Proof. apply distinct_NoDup. vm_compute. reflexivity. Qed.

(** *** Reject reasons *)

(** X1: The reject reasons are reported once each and in the order the program
    tests the rules: they are the seven labels with those of the rules that
    do not hold left out. *)
Theorem reject_reasons_ordered (U : Unicode) (l : LeadInput) :
  returns (apply_scoring U l) (fun '(_, r) =>
    NoDup (reject_reasons r) /\
    reject_reasons r
      = filter (fun s => mem s (reject_reasons r)) hard_labels /\
    (List.length (reject_reasons r) <= 7)%nat).
Proof.
  rewrite apply_scoring_eq. cbn [returns ret].
  rewrite score_reject_reasons. unfold hard_rejects, fire.
  pose proof (hard_rules_labels U) as Hnd.
  split; [apply select_NoDup; exact Hnd|].
  assert (E := select_ordered _ (normalized U l) (hard_rules U) Hnd).
  rewrite hard_labels_eq in E.
  split; [exact E|].
  rewrite E. etransitivity; [apply filter_length_le|]. reflexivity.
Qed.

(** X2: A lead the hard rules reject comes back with buyer type Unknown and no
    pain point, whatever its decision style and motivation say. *)
Theorem rejected_profile_dropped (U : Unicode) (l : LeadInput) :
  returns (apply_scoring U l) (fun '(_, r) =>
    reject_reasons r <> [] ->
    buyer_type r = lit "Unknown" /\ pain_points r = []).
Proof.
  rewrite apply_scoring_eq. cbn [returns ret].
  rewrite score_reject_reasons. intro H.
  rewrite (score_rejected _ _ H). split; reflexivity.
Qed.

Lemma rejected_profile_dropped_witness :
  exists l' r,
    apply_scoring ascii_only
      (sample_profile (Some 120) (Some (lit "Researches quality"))
         (Some (lit "Saving money"))) = inr (l', r) /\
    reject_reasons r <> [] /\
    buyer_type r = lit "Unknown" /\ pain_points r = [].
Proof.
  pose proof (rejected_profile_dropped ascii_only
                (sample_profile (Some 120) (Some (lit "Researches quality"))
                   (Some (lit "Saving money")))) as H.
  destruct (apply_scoring ascii_only _) as [e|[l' r]] eqn:E; [destruct H|].
  vm_compute in E. injection E as <- <-.
  eexists. eexists. split; [reflexivity|].
  assert (Hne : [outside_radius] <> []) by discriminate.
  split; [exact Hne|]. exact (H Hne).
Defined.

(** *** Shading and HOA labels *)

(** X3: [map_shading_to_code] gives no code exactly for an absent or empty
    label, and otherwise one of the five codes; with ["full"] in the lowered
    label the code is full_sun whatever else the label says. *)
Theorem map_shading_to_code_codes (U : Unicode) (o : option str) :
  (map_shading_to_code U o = None <-> o = None \/ o = Some []) /\
  (forall c, map_shading_to_code U o = Some c -> In c shading_codes) /\
  (forall t, o = Some t -> t <> [] ->
     contains (lit "full") (lower U t) = true ->
     map_shading_to_code U o = Some (lit "full_sun")).
Proof.
  unfold map_shading_to_code, shading_codes.
  destruct o as [[|c t]|].
  - split; [tauto|]. split; [discriminate|]. intros t E H. congruence.
  - cbv zeta. split; [|split].
    + split; [|intros [H|H]; discriminate].
      destruct (contains _ _); [discriminate|].
      destruct (contains _ _); [discriminate|].
      destruct (contains _ _); [discriminate|].
      destruct (contains _ _); discriminate.
    + intros code.
      destruct (contains _ _); [intro H; injection H as <-; simpl; auto|].
      destruct (contains _ _); [intro H; injection H as <-; simpl; auto|].
      destruct (contains _ _); [intro H; injection H as <-; simpl; auto|].
      destruct (contains _ _); intro H; injection H as <-; simpl; auto 6.
    + intros t' E _ H. injection E as <-. now rewrite H.
  - split; [tauto|]. split; [discriminate|]. intros t E. discriminate.
Qed.

Lemma map_shading_to_code_codes_witness :
  map_shading_to_code ascii_only (Some (lit "Heavy shade, FULL sun at noon"))
    = Some (lit "full_sun") /\
  In (lit "full_sun") shading_codes.
Proof.
  destruct (map_shading_to_code_codes ascii_only
              (Some (lit "Heavy shade, FULL sun at noon")))
    as (_ & Hin & Hfull).
  assert (E : map_shading_to_code ascii_only
                (Some (lit "Heavy shade, FULL sun at noon"))
              = Some (lit "full_sun")).
  { apply (Hfull (lit "Heavy shade, FULL sun at noon"));
      [reflexivity | discriminate | vm_compute; reflexivity]. }
  split; [exact E|]. exact (Hin _ E).
Defined.

Lemma lower_ascii (U : Unicode) (s : str) :
  forallb is_ascii s = true -> lower U s = map ascii_lower s.
Proof. unfold lower. now intros ->. Qed.

(** X4: Both label mappers ignore letter case in ASCII labels: two such labels
    that differ only in the case of their letters get the same code and the
    same HOA answer. *)
Theorem label_case_ignored (U : Unicode) (s t : str) :
  forallb is_ascii s = true -> forallb is_ascii t = true ->
  map ascii_lower s = map ascii_lower t ->
  map_shading_to_code U (Some s) = map_shading_to_code U (Some t) /\
  map_hoa_to_bool U (Some s) = map_hoa_to_bool U (Some t).
Proof.
  intros Hs Ht E. unfold map_shading_to_code, map_hoa_to_bool.
  destruct s as [|c s], t as [|d t]; try discriminate E.
  - split; reflexivity.
  - rewrite (lower_ascii U _ Hs), (lower_ascii U _ Ht), E.
    split; reflexivity.
Qed.

Lemma label_case_ignored_witness :
  map_shading_to_code ascii_only (Some (lit "MOSTLY Sunny"))
    = map_shading_to_code ascii_only (Some (lit "mostly sunny")) /\
  map_hoa_to_bool ascii_only (Some (lit "MOSTLY Sunny"))
    = map_hoa_to_bool ascii_only (Some (lit "mostly sunny")).
Proof.
  apply (label_case_ignored ascii_only); vm_compute; reflexivity.
Defined.

(** X5: A lead is rejected for shading exactly when its lowered shading label
    contains ["heavy"] and none of ["full"], ["mostly"] and ["partial"],
    which are tested first. *)
Theorem excessive_shading_iff (U : Unicode) (l : LeadInput) :
  returns (apply_scoring U l) (fun '(_, r) =>
    In excessive_shading (reject_reasons r) <->
    exists t,
      shading_level l = Some t /\ t <> [] /\
      contains (lit "heavy") (lower U t) = true /\
      contains (lit "full") (lower U t) = false /\
      contains (lit "mostly") (lower U t) = false /\
      contains (lit "partial") (lower U t) = false).
Proof.
  rewrite apply_scoring_eq. cbn [returns ret].
  rewrite score_reject_reasons. unfold hard_rejects.
  rewrite (fire_In _ _ (heavy_shade U) excessive_shading
             (hard_rules_labels U)) by (simpl; auto 10).
  destruct (normalize_monthly_bill_frame U l)
    as (_&_&_&_&_&_&_&_&_&_&_&_&_&Hsh&_).
  unfold heavy_shade. rewrite Hsh. unfold map_shading_to_code.
  destruct (shading_level l) as [[|c t]|].
  - split; [discriminate|]. intros (t & E & Hne & _). congruence.
  - cbv zeta. split.
    + intro H. exists (c :: t). split; [reflexivity|].
      split; [discriminate|].
      destruct (contains (lit "full") _); [discriminate H|].
      destruct (contains (lit "mostly") _); [discriminate H|].
      destruct (contains (lit "partial") _); [discriminate H|].
      destruct (contains (lit "heavy") _); [auto | discriminate H].
    + intros (t' & E & _ & Hh & Hf & Hm & Hp). injection E as <-.
      rewrite Hf, Hm, Hp, Hh. reflexivity.
  - split; [discriminate|]. intros (t & E & _). discriminate.
Qed.

Lemma excessive_shading_iff_witness :
  (exists l' r,
     apply_scoring ascii_only
       (sample_site None None (Some (lit "Heavy shade")) None)
       = inr (l', r) /\
     In excessive_shading (reject_reasons r)) /\
  (exists l' r,
     apply_scoring ascii_only
       (sample_site None None (Some (lit "Heavy shade, partial sun")) None)
       = inr (l', r) /\
     ~ In excessive_shading (reject_reasons r)).
Proof.
  split.
  - pose proof (excessive_shading_iff ascii_only
                  (sample_site None None (Some (lit "Heavy shade")) None))
      as H.
    destruct (apply_scoring ascii_only _) as [e|[l' r]]; [destruct H|].
    exists l', r. split; [reflexivity|]. apply H.
    exists (lit "Heavy shade"). split; [reflexivity|].
    split; [discriminate|]. repeat split; vm_compute; reflexivity.
  - pose proof (excessive_shading_iff ascii_only
                  (sample_site None None
                     (Some (lit "Heavy shade, partial sun")) None)) as H.
    destruct (apply_scoring ascii_only _) as [e|[l' r]]; [destruct H|].
    exists l', r. split; [reflexivity|]. intro Hin. apply H in Hin.
    destruct Hin as (t & E & _ & _ & _ & _ & Hp).
    injection E as <-. vm_compute in Hp. discriminate Hp.
Defined.

(** X6: A lead is rejected for its HOA exactly when its lowered HOA label
    contains ["restriction"] and neither ["no hoa"] nor ["allow"]: a label
    with both ["allow"] and ["restriction"] is not rejected. *)
Theorem hoa_forbids_iff (U : Unicode) (l : LeadInput) :
  returns (apply_scoring U l) (fun '(_, r) =>
    In hoa_forbids (reject_reasons r) <->
    exists t,
      hoa_allows_solar l = Some t /\ t <> [] /\
      contains (lit "restriction") (lower U t) = true /\
      contains (lit "no hoa") (lower U t) = false /\
      contains (lit "allow") (lower U t) = false).
Proof.
  rewrite apply_scoring_eq. cbn [returns ret].
  rewrite score_reject_reasons. unfold hard_rejects.
  rewrite (fire_In _ _ (hoa_restricted U) hoa_forbids
             (hard_rules_labels U)) by (simpl; auto 10).
  destruct (normalize_monthly_bill_frame U l)
    as (_&_&_&_&_&_&_&_&_&_&_&_&_&_&Hh&_).
  unfold hoa_restricted. rewrite Hh. unfold map_hoa_to_bool.
  destruct (hoa_allows_solar l) as [[|c t]|].
  - split; [discriminate|]. intros (t & E & Hne & _). congruence.
  - cbv zeta. split.
    + intro H. exists (c :: t). split; [reflexivity|].
      split; [discriminate|].
      destruct (contains (lit "no hoa") _); [discriminate H|].
      destruct (contains (lit "allow") _); [discriminate H|].
      destruct (contains (lit "restriction") _); [auto | discriminate H].
    + intros (t' & E & _ & Hr & Hn & Ha). injection E as <-.
      rewrite Hn, Ha, Hr. reflexivity.
  - split; [discriminate|]. intros (t & E & _). discriminate.
Qed.

Lemma hoa_forbids_iff_witness :
  (exists l' r,
     apply_scoring ascii_only
       (sample_site None None None (Some (lit "Has Restrictions")))
       = inr (l', r) /\
     In hoa_forbids (reject_reasons r)) /\
  (exists l' r,
     apply_scoring ascii_only
       (sample_site None None None
          (Some (lit "Allowed with restrictions"))) = inr (l', r) /\
     ~ In hoa_forbids (reject_reasons r)).
Proof.
  split.
  - pose proof (hoa_forbids_iff ascii_only
                  (sample_site None None None
                     (Some (lit "Has Restrictions")))) as H.
    destruct (apply_scoring ascii_only _) as [e|[l' r]]; [destruct H|].
    exists l', r. split; [reflexivity|]. apply H.
    exists (lit "Has Restrictions"). split; [reflexivity|].
    split; [discriminate|]. repeat split; vm_compute; reflexivity.
  - pose proof (hoa_forbids_iff ascii_only
                  (sample_site None None None
                     (Some (lit "Allowed with restrictions")))) as H.
    destruct (apply_scoring ascii_only _) as [e|[l' r]]; [destruct H|].
    exists l', r. split; [reflexivity|]. intro Hin. apply H in Hin.
    destruct Hin as (t & E & _ & _ & _ & Ha).
    injection E as <-. vm_compute in Ha. discriminate Ha.
Defined.

(** *** Graduated sub-scores *)

Lemma property_values_bounds (x : Z) :
  In x property_values -> 50 <= x <= 100 /\ x mod 5 = 0.
Proof.
  assert (H : forallb (fun x => (50 <=? x) && (x <=? 100) && (x mod 5 =? 0))
                property_values = true) by (vm_compute; reflexivity).
  rewrite forallb_forall in H. intro Hin. specialize (H x Hin).
  rewrite !andb_true_iff, !Z.leb_le, Z.eqb_eq in H. tauto.
Qed.

Lemma financial_values_bounds (x : Z) :
  In x financial_values -> 40 <= x <= 100 /\ x mod 10 = 0.
Proof.
  assert (H : forallb (fun x => (40 <=? x) && (x <=? 100) && (x mod 10 =? 0))
                financial_values = true) by (vm_compute; reflexivity).
  rewrite forallb_forall in H. intro Hin. specialize (H x Hin).
  rewrite !andb_true_iff, !Z.leb_le, Z.eqb_eq in H. tauto.
Qed.

Lemma property_points_values (U : Unicode) (l : LeadInput) :
  In (roof_material_points U l) [25; 15; 0] /\
  In (roof_age_points l) [20; 10; 0] /\
  In (shading_points U l) [15; 10; 0].
Proof.
  split; [|split].
  - unfold roof_material_points. destruct (roof_type l); [|simpl; auto].
    cbv zeta. destruct (_ || _); [simpl; auto|].
    destruct (_ || _); simpl; auto.
  - unfold roof_age_points. destruct (roof_age_years l) as [a|]; [|simpl; auto].
    destruct (a <=? 5), (a <=? 10); simpl; auto.
  - unfold shading_points. cbv zeta.
    destruct (opt_eqb _ _); [simpl; auto|].
    destruct (opt_eqb _ _); simpl; auto.
Qed.

Lemma financial_points_values (U : Unicode) (l : LeadInput) :
  In (bill_points l) [30; 20; 10; 0] /\
  In (true_up_points U l) [20; 10; 0] /\
  In (credit_points U l) [20; 10; 0].
Proof.
  split; [|split].
  - unfold bill_points. destruct (monthly_bill l) as [b|]; [|simpl; auto].
    destruct (400 <=? b)%float, (200 <=? b)%float, (150 <=? b)%float;
      simpl; auto.
  - unfold true_up_points. cbv zeta.
    destruct (contains _ _); [simpl; auto|].
    destruct (contains _ _); simpl; auto.
  - unfold credit_points. cbv zeta.
    destruct (startswith _ _); [simpl; auto|].
    destruct (_ || _); simpl; auto.
Qed.

Lemma true_up_points_normalized (U : Unicode) (l : LeadInput) :
  true_up_points U (normalized U l) = true_up_points U l.
Proof.
  destruct (normalized_cases U l) as [-> | (x & ->)]; reflexivity.
Qed.

Lemma credit_points_normalized (U : Unicode) (l : LeadInput) :
  credit_points U (normalized U l) = credit_points U l.
Proof.
  destruct (normalized_cases U l) as [-> | (x & ->)]; reflexivity.
Qed.

(** X7: A lead that is scored gets as property score the sum of 50 and its
    roof-material, roof-age and shading points, cut at 100, and as financial
    score the sum of 40 and its bill, true-up and credit points, cut at 100.
    The first sum is a multiple of 5 from 50 to 110 and the second a multiple
    of 10 from 40 to 110: the lower clamp never acts, and the upper one cuts
    the sums 105 and 110 down to 100. *)
Theorem graduated_score_steps (U : Unicode) (l : LeadInput) :
  returns (apply_scoring U l) (fun '(l', r) =>
    l' = normalized U l /\
    (reject_reasons r = [] ->
     let p := 50 + roof_material_points U l + roof_age_points l
              + shading_points U l in
     let f := 40 + bill_points (normalized U l) + true_up_points U l
              + credit_points U l in
     property_score r = Z.min p 100 /\
     (50 <= p <= 110 /\ p mod 5 = 0) /\
     financial_score r = Z.min f 100 /\
     (40 <= f <= 110 /\ f mod 10 = 0))).
Proof.
  rewrite apply_scoring_eq. cbn [returns ret]. split; [reflexivity|].
  rewrite score_reject_reasons. intro H.
  rewrite (score_graduated _ _ H). cbv zeta.
  destruct (graduated_of_input U l) as (Hp & Hf & _).
  rewrite Hp, Hf. unfold graduated_property, graduated_financial, clamp.
  rewrite true_up_points_normalized, credit_points_normalized.
  destruct (property_points_values U l) as (Hm & Ha & Hs).
  destruct (financial_points_values U (normalized U l)) as (Hb & _).
  destruct (financial_points_values U l) as (_ & Ht & Hc).
  assert (Hpb : 50 <= 50 + roof_material_points U l + roof_age_points l
                      + shading_points U l <= 110 /\
                (50 + roof_material_points U l + roof_age_points l
                 + shading_points U l) mod 5 = 0).
  { simpl in Hm, Ha, Hs.
    destruct Hm as [<-|[<-|[<-|[]]]], Ha as [<-|[<-|[<-|[]]]],
      Hs as [<-|[<-|[<-|[]]]]; split; (lia || reflexivity). }
  assert (Hfb : 40 <= 40 + bill_points (normalized U l) + true_up_points U l
                      + credit_points U l <= 110 /\
                (40 + bill_points (normalized U l) + true_up_points U l
                 + credit_points U l) mod 10 = 0).
  { simpl in Hb, Ht, Hc.
    destruct Hb as [<-|[<-|[<-|[<-|[]]]]], Ht as [<-|[<-|[<-|[]]]],
      Hc as [<-|[<-|[<-|[]]]]; split; (lia || reflexivity). }
  split; [lia|]. split; [exact Hpb|]. split; [lia | exact Hfb].
Qed.

Lemma graduated_score_steps_witness :
  exists l' r,
    apply_scoring ascii_only
      (sample_site (Some (lit "Asphalt shingle")) (Some 3)
         (Some (lit "Mostly sunny")) None) = inr (l', r) /\
    reject_reasons r = [] /\
    50 + roof_material_points ascii_only l' + roof_age_points l'
      + shading_points ascii_only l' = 105 /\
    property_score r = Z.min 105 100 /\ property_score r = 100 /\
    financial_score r = 40.
Proof.
  pose proof (graduated_score_steps ascii_only
                (sample_site (Some (lit "Asphalt shingle")) (Some 3)
                   (Some (lit "Mostly sunny")) None)) as H.
  destruct (apply_scoring ascii_only _) as [e|[l' r]] eqn:E; [destruct H|].
  vm_compute in E. injection E as <- <-.
  eexists. eexists. split; [reflexivity|]. split; [reflexivity|].
  split; [reflexivity|].
  destruct H as (_ & H). destruct (H eq_refl) as (Hp & _).
  split; [exact Hp|]. split; reflexivity.
Defined.

Lemma decision_profiles (U : Unicode) (l : LeadInput) :
  In (buyer_type_of U l, graduated_behavioral U l) buyer_profiles.
Proof.
  unfold buyer_type_of, graduated_behavioral, decision, decision_rules.
  cbn [find fst snd].
  destruct (_ || _); [simpl; auto|].
  destruct (_ && _); [simpl; auto|].
  destruct (contains _ _); [simpl; auto|].
  destruct (contains _ _); simpl; auto 6.
Qed.

(** X8: The buyer type and the behavioral score of a scored lead go together:
    Quality Focused with 75, Trusts Experts with 70, Price Shopper with 40,
    Discount Seeker with 45 and Unknown with 50, so the behavioral clamp
    never acts. *)
Theorem buyer_type_with_score (U : Unicode) (l : LeadInput) :
  returns (apply_scoring U l) (fun '(_, r) =>
    reject_reasons r = [] ->
    In (buyer_type r, behavioral_score r) buyer_profiles).
Proof.
  rewrite apply_scoring_eq. cbn [returns ret].
  rewrite score_reject_reasons. intro H.
  rewrite (score_graduated _ _ H).
  cbn [graduated buyer_type behavioral_score]. apply decision_profiles.
Qed.

Lemma buyer_type_with_score_witness :
  exists l' r,
    apply_scoring ascii_only
      (sample_profile None (Some (lit "Looks for the best DEAL")) None)
      = inr (l', r) /\
    reject_reasons r = [] /\
    buyer_type r = lit "Discount Seeker" /\ behavioral_score r = 45 /\
    In (buyer_type r, behavioral_score r) buyer_profiles.
Proof.
  pose proof (buyer_type_with_score ascii_only
                (sample_profile None (Some (lit "Looks for the best DEAL"))
                   None)) as H.
  destruct (apply_scoring ascii_only _) as [e|[l' r]] eqn:E; [destruct H|].
  vm_compute in E. injection E as <- <-.
  eexists. eexists. split; [reflexivity|]. split; [reflexivity|].
  split; [reflexivity|]. split; [reflexivity|]. exact (H eq_refl).
Defined.

(** X9: The pain points of a scored lead are tags of the four, once each and in
    the order the program tests them, and a tag is there exactly when its
    keyword is in the lowered motivation, the default text when the
    motivation is absent or empty. *)
Theorem pain_points_tags (U : Unicode) (l : LeadInput) :
  returns (apply_scoring U l) (fun '(_, r) =>
    reject_reasons r = [] ->
    let mot := lower U (normalize_motivation (motivation l)) in
    NoDup (pain_points r) /\
    pain_points r = filter (fun s => mem s (pain_points r)) pain_tags /\
    (In (lit "high_bills") (pain_points r)
       <-> contains (lit "saving") mot = true) /\
    (In (lit "environmental_impact") (pain_points r)
       <-> contains (lit "environment") mot = true) /\
    (In (lit "grid_dependence") (pain_points r)
       <-> contains (lit "independence") mot || contains (lit "backup") mot
           = true) /\
    (In (lit "quality_equipment") (pain_points r)
       <-> contains (lit "quality") mot = true)).
Proof.
  rewrite apply_scoring_eq. cbn [returns ret].
  rewrite score_reject_reasons. intro H.
  rewrite (score_graduated _ _ H). cbn [graduated pain_points].
  destruct (normalize_monthly_bill_frame U l)
    as (_&_&_&_&_&_&_&_&_&_&_&_&_&_&_&_&_&_&_&Hm&_).
  unfold pain_points_of. rewrite Hm. cbv zeta.
  set (mot := lower U (normalize_motivation (motivation l))).
  pose proof pain_tags_distinct as Hnd.
  split; [apply select_NoDup; exact Hnd|].
  split; [rewrite <- pain_tags_eq; apply select_ordered; exact Hnd|].
  split; [apply (select_In _ mot pain_rules (contains (lit "saving")));
          [exact Hnd | simpl; auto]|].
  split; [apply (select_In _ mot pain_rules (contains (lit "environment")));
          [exact Hnd | simpl; auto]|].
  split.
  - apply (select_In _ mot pain_rules
             (fun m => contains (lit "independence") m
                       || contains (lit "backup") m));
      [exact Hnd | simpl; auto].
  - apply (select_In _ mot pain_rules (contains (lit "quality")));
      [exact Hnd | simpl; auto 6].
Qed.

Lemma pain_points_tags_witness :
  exists l' r,
    apply_scoring ascii_only
      (sample_profile None None
         (Some (lit "Energy independence and SAVINGS"))) = inr (l', r) /\
    reject_reasons r = [] /\
    pain_points r = [lit "high_bills"; lit "grid_dependence"] /\
    NoDup (pain_points r).
Proof.
  pose proof (pain_points_tags ascii_only
                (sample_profile None None
                   (Some (lit "Energy independence and SAVINGS")))) as H.
  destruct (apply_scoring ascii_only _) as [e|[l' r]] eqn:E; [destruct H|].
  vm_compute in E. injection E as <- <-.
  eexists. eexists. split; [reflexivity|]. split; [reflexivity|].
  split; [reflexivity|]. exact (proj1 (H eq_refl)).
Defined.

(** *** Landlords *)

Lemma landlord_score_of_mono (l1 l2 : LeadInput) (n1 n2 : Z) :
  is_landlord l1 = Some true -> is_landlord l2 = Some true ->
  property_count l1 = Some n1 -> property_count l2 = Some n2 -> n1 <= n2 ->
  60 <= landlord_score_of l1 <= landlord_score_of l2.
Proof.
  unfold landlord_score_of. intros -> -> -> -> H.
  destruct (Z.leb_spec 10 n1), (Z.leb_spec 6 n1), (Z.leb_spec 3 n1),
    (Z.leb_spec 10 n2), (Z.leb_spec 6 n2), (Z.leb_spec 3 n2); lia.
Qed.

(** X10: Among scored landlords more properties never give a lower landlord
    score, which is 60 at least. *)
Theorem landlord_score_monotone (U : Unicode) (l1 l2 : LeadInput) (n1 n2 : Z) :
  is_landlord l1 = Some true -> is_landlord l2 = Some true ->
  property_count l1 = Some n1 -> property_count l2 = Some n2 -> n1 <= n2 ->
  returns (apply_scoring U l1) (fun '(_, r1) =>
    returns (apply_scoring U l2) (fun '(_, r2) =>
      reject_reasons r1 = [] -> reject_reasons r2 = [] ->
      60 <= landlord_score r1 <= landlord_score r2)).
Proof.
  intros Hl1 Hl2 Hc1 Hc2 Hn. rewrite !apply_scoring_eq. cbn [returns ret].
  rewrite !score_reject_reasons. intros H1 H2.
  rewrite (score_graduated _ _ H1), (score_graduated _ _ H2).
  cbn [graduated landlord_score].
  destruct (normalize_monthly_bill_frame U l1)
    as (_&_&_&_&_&_&_&_&_&Hf1&Hp1&_).
  destruct (normalize_monthly_bill_frame U l2)
    as (_&_&_&_&_&_&_&_&_&Hf2&Hp2&_).
  apply (landlord_score_of_mono _ _ n1 n2).
  all: try assumption.
  all: congruence.
Qed.

Lemma landlord_score_monotone_witness :
  returns (apply_scoring ascii_only (sample_landlord (Some true) (Some 2)))
    (fun '(_, r1) =>
       returns
         (apply_scoring ascii_only (sample_landlord (Some true) (Some 9)))
         (fun '(_, r2) =>
            reject_reasons r1 = [] /\ reject_reasons r2 = [] /\
            landlord_score r1 = 60 /\ landlord_score r2 = 85 /\
            60 <= landlord_score r1 <= landlord_score r2)).
Proof.
  assert (H := landlord_score_monotone ascii_only
                 (sample_landlord (Some true) (Some 2))
                 (sample_landlord (Some true) (Some 9)) 2 9
                 eq_refl eq_refl eq_refl eq_refl).
  assert (Hle : 2 <= 9) by lia. specialize (H Hle).
  destruct (apply_scoring ascii_only (sample_landlord (Some true) (Some 2)))
    as [e|[l1 r1]] eqn:E1; [destruct H|].
  destruct (apply_scoring ascii_only (sample_landlord (Some true) (Some 9)))
    as [e|[l2 r2]] eqn:E2; [destruct H|].
  vm_compute in E1. injection E1 as <- <-.
  vm_compute in E2. injection E2 as <- <-.
  cbn [returns] in *.
  split; [reflexivity|]. split; [reflexivity|].
  split; [reflexivity|]. split; [reflexivity|]. exact (H eq_refl eq_refl).
Defined.

(** X11: The landlord score of a scored lead is 0 exactly when the landlord box
    is not ticked: a property count alone earns nothing, and a ticked box
    earns 60 even with no count or a negative one. *)
Theorem landlord_needs_flag (U : Unicode) (l : LeadInput) :
  returns (apply_scoring U l) (fun '(_, r) =>
    reject_reasons r = [] ->
    (landlord_score r = 0 <-> is_landlord l <> Some true) /\
    (is_landlord l = Some true ->
     (property_count l = None \/
      exists n, property_count l = Some n /\ n < 3) ->
     landlord_score r = 60)).
Proof.
  rewrite apply_scoring_eq. cbn [returns ret].
  rewrite score_reject_reasons. intro H.
  rewrite (score_graduated _ _ H). cbn [graduated landlord_score].
  destruct (normalize_monthly_bill_frame U l)
    as (_&_&_&_&_&_&_&_&_&Hf&Hp&_).
  unfold landlord_score_of. rewrite Hf, Hp. split.
  - destruct (is_landlord l) as [[|]|].
    + split; [|congruence].
      destruct (property_count l) as [n|]; [|discriminate].
      destruct (10 <=? n), (6 <=? n), (3 <=? n); discriminate.
    + split; [discriminate | reflexivity].
    + split; [discriminate | reflexivity].
  - intros -> [-> | (n & -> & Hn)]; [reflexivity|].
    destruct (Z.leb_spec 10 n), (Z.leb_spec 6 n), (Z.leb_spec 3 n);
      try lia; reflexivity.
Qed.

Lemma landlord_needs_flag_witness :
  (exists l' r,
     apply_scoring ascii_only (sample_landlord None (Some 25))
       = inr (l', r) /\
     reject_reasons r = [] /\ landlord_score r = 0) /\
  (exists l' r,
     apply_scoring ascii_only (sample_landlord (Some true) (Some (-4)))
       = inr (l', r) /\
     reject_reasons r = [] /\ landlord_score r = 60).
Proof.
  split.
  - pose proof (landlord_needs_flag ascii_only
                  (sample_landlord None (Some 25))) as H.
    destruct (apply_scoring ascii_only _) as [e|[l' r]] eqn:E; [destruct H|].
    vm_compute in E. injection E as <- <-.
    eexists. eexists. split; [reflexivity|]. split; [reflexivity|].
    apply (H eq_refl). discriminate.
  - pose proof (landlord_needs_flag ascii_only
                  (sample_landlord (Some true) (Some (-4)))) as H.
    destruct (apply_scoring ascii_only _) as [e|[l' r]] eqn:E; [destruct H|].
    vm_compute in E. injection E as <- <-.
    eexists. eexists. split; [reflexivity|]. split; [reflexivity|].
    apply (H eq_refl); [reflexivity|].
    right. exists (-4). split; [reflexivity | lia].
Defined.

(** *** Roof age *)

Lemma clamp_mono (x y : Z) : x <= y -> clamp x <= clamp y.
Proof. unfold clamp. lia. Qed.

Lemma roof_age_points_anti (l1 l2 : LeadInput) (a1 a2 : Z) :
  roof_age_years l1 = Some a1 -> roof_age_years l2 = Some a2 -> a1 <= a2 ->
  roof_age_points l2 <= roof_age_points l1.
Proof.
  unfold roof_age_points. intros -> -> H.
  destruct (Z.leb_spec a1 5), (Z.leb_spec a1 10), (Z.leb_spec a2 5),
    (Z.leb_spec a2 10); lia.
Qed.

(** X12: Of two scored leads with the same roof type and shading label, the one
    with the younger roof never has the lower property score. *)
Theorem younger_roof_scores_no_lower (U : Unicode) (l1 l2 : LeadInput)
    (a1 a2 : Z) :
  roof_type l1 = roof_type l2 -> shading_level l1 = shading_level l2 ->
  roof_age_years l1 = Some a1 -> roof_age_years l2 = Some a2 -> a1 <= a2 ->
  returns (apply_scoring U l1) (fun '(_, r1) =>
    returns (apply_scoring U l2) (fun '(_, r2) =>
      reject_reasons r1 = [] -> reject_reasons r2 = [] ->
      property_score r2 <= property_score r1)).
Proof.
  intros Hr Hs Ha1 Ha2 Hle. rewrite !apply_scoring_eq. cbn [returns ret].
  rewrite !score_reject_reasons. intros H1 H2.
  rewrite (score_graduated _ _ H1), (score_graduated _ _ H2).
  cbn [graduated property_score].
  destruct (normalize_monthly_bill_frame U l1)
    as (_&_&_&_&_&_&_&_&_&_&_&Hr1&Ha1'&Hs1&_).
  destruct (normalize_monthly_bill_frame U l2)
    as (_&_&_&_&_&_&_&_&_&_&_&Hr2&Ha2'&Hs2&_).
  unfold graduated_property. apply clamp_mono.
  assert (Em : roof_material_points U (normalized U l2)
               = roof_material_points U (normalized U l1))
    by (unfold roof_material_points; rewrite Hr1, Hr2, Hr; reflexivity).
  assert (Es : shading_points U (normalized U l2)
               = shading_points U (normalized U l1))
    by (unfold shading_points; rewrite Hs1, Hs2, Hs; reflexivity).
  assert (Hp := roof_age_points_anti (normalized U l1) (normalized U l2)
                  a1 a2).
  rewrite Em, Es. assert (roof_age_points (normalized U l2)
                          <= roof_age_points (normalized U l1)); [|lia].
  apply Hp.
  all: try assumption.
  all: congruence.
Qed.

Lemma younger_roof_scores_no_lower_witness :
  returns
    (apply_scoring ascii_only
       (sample_site (Some (lit "Tile")) (Some 4) None None))
    (fun '(_, r1) =>
       returns
         (apply_scoring ascii_only
            (sample_site (Some (lit "Tile")) (Some 12) None None))
         (fun '(_, r2) =>
            reject_reasons r1 = [] /\ reject_reasons r2 = [] /\
            property_score r1 = 85 /\ property_score r2 = 65 /\
            property_score r2 <= property_score r1)).
Proof.
  assert (H := younger_roof_scores_no_lower ascii_only
                 (sample_site (Some (lit "Tile")) (Some 4) None None)
                 (sample_site (Some (lit "Tile")) (Some 12) None None) 4 12
                 eq_refl eq_refl eq_refl eq_refl).
  assert (Hle : 4 <= 12) by lia. specialize (H Hle).
  destruct (apply_scoring ascii_only
              (sample_site (Some (lit "Tile")) (Some 4) None None))
    as [e|[l1 r1]] eqn:E1; [destruct H|].
  destruct (apply_scoring ascii_only
              (sample_site (Some (lit "Tile")) (Some 12) None None))
    as [e|[l2 r2]] eqn:E2; [destruct H|].
  vm_compute in E1. injection E1 as <- <-.
  vm_compute in E2. injection E2 as <- <-.
  cbn [returns] in *.
  split; [reflexivity|]. split; [reflexivity|].
  split; [reflexivity|]. split; [reflexivity|]. exact (H eq_refl eq_refl).
Defined.

(** *** The landlord bonus and the tier *)

Lemma normalized_as_non_landlord (U : Unicode) (l : LeadInput) :
  normalized U (as_non_landlord l) = as_non_landlord (normalized U l).
Proof.
  unfold normalized, bill_estimate. cbn [as_non_landlord monthly_bill
    monthly_bill_raw].
  destruct (monthly_bill l); [reflexivity|].
  destruct (monthly_bill_raw l) as [[|c raw]|]; try reflexivity.
  destruct (estimate_of_raw U (c :: raw)); reflexivity.
Qed.

Lemma bonus_helps_reachable :
  bonus_helps_on property_values financial_values behavioral_values
    landlord_values = true.
Proof. vm_compute. reflexivity. Qed.

Lemma bonus_helps_on_In (ps fs bs lss : list Z) (p f b ls : Z) :
  bonus_helps_on ps fs bs lss = true ->
  In p ps -> In f fs -> In b bs -> In ls lss ->
  (tier_rank (tier_of (total_weighted p f b 0))
   <= tier_rank (tier_of (total_weighted p f b ls)))%nat.
Proof.
  unfold bonus_helps_on. intros H Hp Hf Hb Hls.
  rewrite forallb_forall in H. specialize (H p Hp).
  rewrite forallb_forall in H. specialize (H f Hf).
  rewrite forallb_forall in H. specialize (H b Hb).
  rewrite forallb_forall in H. apply Nat.leb_le. exact (H ls Hls).
Qed.

(** X13: Being a landlord never lowers the tier: the same lead with the landlord
    box not ticked has the same reject reasons and, when it is scored, the
    same three other sub-scores and a tier that is no better. *)
Theorem landlord_never_lowers_tier (U : Unicode) (l : LeadInput) :
  returns (apply_scoring U l) (fun '(_, r) =>
    returns (apply_scoring U (as_non_landlord l)) (fun '(_, r0) =>
      reject_reasons r0 = reject_reasons r /\
      (reject_reasons r = [] ->
       property_score r0 = property_score r /\
       financial_score r0 = financial_score r /\
       behavioral_score r0 = behavioral_score r /\
       landlord_score r0 = 0 /\
       (tier_rank (ai_tier r0) <= tier_rank (ai_tier r))%nat))).
Proof.
  rewrite !apply_scoring_eq. cbn [returns ret].
  rewrite normalized_as_non_landlord. set (l' := normalized U l).
  rewrite !score_reject_reasons.
  assert (Hr : hard_rejects U (as_non_landlord l') = hard_rejects U l')
    by reflexivity.
  split; [exact Hr|]. intro H.
  rewrite (score_graduated U l' H).
  rewrite (score_graduated U (as_non_landlord l'))
    by (rewrite Hr; exact H).
  cbn [graduated property_score financial_score behavioral_score
         landlord_score ai_tier].
  change (graduated_property U (as_non_landlord l'))
    with (graduated_property U l').
  change (graduated_financial U (as_non_landlord l'))
    with (graduated_financial U l').
  change (graduated_behavioral U (as_non_landlord l'))
    with (graduated_behavioral U l').
  change (landlord_score_of (as_non_landlord l')) with 0.
  repeat (split; [reflexivity|]).
  apply (bonus_helps_on_In _ _ _ _ _ _ _ _ bonus_helps_reachable).
  - apply graduated_property_values.
  - apply graduated_financial_values.
  - apply graduated_behavioral_values.
  - apply landlord_score_of_range.
Qed.

Lemma landlord_never_lowers_tier_witness :
  let l :=
    {| name := None; email := None; phone := None; address := None;
       city := None; state := None; zip := None; source := None;
       property_type := None; is_landlord := Some true;
       property_count := Some 4;
       roof_type := Some (lit "Composition shingle");
       roof_age_years := Some 8; shading_level := Some (lit "Mostly sunny");
       hoa_allows_solar := None; distance_minutes := Some 30;
       monthly_bill_raw := None; monthly_bill := Some 250%float;
       true_up_band := None; credit_band := Some (lit "720+");
       motivation := None; decision_style := None |} in
  returns (apply_scoring ascii_only l) (fun '(_, r) =>
    returns (apply_scoring ascii_only (as_non_landlord l)) (fun '(_, r0) =>
      reject_reasons r = [] /\
      ai_tier r = lit "HOT" /\ ai_tier r0 = lit "QUALIFIED" /\
      (tier_rank (ai_tier r0) <= tier_rank (ai_tier r))%nat)).
Proof.
  intro l. pose proof (landlord_never_lowers_tier ascii_only l) as H.
  destruct (apply_scoring ascii_only l) as [e|[l1 r]] eqn:E1;
    [destruct H|].
  destruct (apply_scoring ascii_only (as_non_landlord l))
    as [e|[l0 r0]] eqn:E0; [destruct H|].
  vm_compute in E1. injection E1 as <- <-.
  vm_compute in E0. injection E0 as <- <-.
  cbn [returns] in *. destruct H as (_ & H).
  split; [reflexivity|]. split; [reflexivity|]. split; [reflexivity|].
  exact (proj2 (proj2 (proj2 (proj2 (H eq_refl))))).
Defined.

(** *** Bills that are not numbers *)











(** *** Normalizing twice, and what the bill text may contain *)

(** X15: Normalizing a lead that was normalized changes nothing, and the endpoint
    answers the same for a lead and for the lead normalization makes of
    it. *)
Theorem normalize_monthly_bill_idempotent (U : Unicode) (l : LeadInput) :
  returns (normalize_monthly_bill U l) (fun l1 =>
    normalize_monthly_bill U l1 = ret l1 /\
    score_lead U l1 = score_lead U l).
Proof.
  rewrite normalize_monthly_bill_eq. cbn [returns ret]. split.
  - rewrite normalize_monthly_bill_eq. now rewrite normalized_idem.
  - unfold score_lead, enrich_with_property_data.
    rewrite !apply_scoring_eq. now rewrite normalized_idem.
Qed.

Lemma clean_bill_app (a b : str) :
  clean_bill (a ++ b) = clean_bill a ++ clean_bill b.
Proof. unfold clean_bill, replace. now rewrite !flat_map_app. Qed.

Lemma estimate_of_raw_clean (U : Unicode) (r1 r2 : str) :
  clean_bill r1 = clean_bill r2 ->
  estimate_of_raw U r1 = estimate_of_raw U r2.
Proof. unfold estimate_of_raw. now intros ->. Qed.

Lemma estimate_of_raw_blank (U : Unicode) (r : str) :
  clean_bill r = [] -> estimate_of_raw U r = None.
Proof. unfold estimate_of_raw. now intros ->. Qed.

Lemma bill_after_clean (U : Unicode) (l1 l2 : LeadInput) (r1 r2 : str) :
  monthly_bill l1 = None -> monthly_bill l2 = None ->
  monthly_bill_raw l1 = Some r1 -> monthly_bill_raw l2 = Some r2 ->
  clean_bill r1 = clean_bill r2 ->
  bill_after U l1 = bill_after U l2.
Proof.
  intros Hb1 Hb2 Hr1 Hr2 Hc. rewrite !bill_after_eq. f_equal.
  unfold bill_estimate. rewrite Hb1, Hb2, Hr1, Hr2.
  destruct r1 as [|c1 r1], r2 as [|c2 r2]; try reflexivity.
  - symmetry. apply estimate_of_raw_blank. now rewrite <- Hc.
  - apply estimate_of_raw_blank. now rewrite Hc.
  - now apply estimate_of_raw_clean.
Qed.

(** X16: A ['$'] or a space anywhere in the raw bill text changes nothing to the
    estimate, and an en-dash counts as a hyphen: the texts with and without
    the character, or with the one dash and the other, leave the same
    bill. *)
Theorem bill_text_equivalent (U : Unicode) (l1 l2 : LeadInput)
    (a b : str) (c : char) :
  monthly_bill l1 = None -> monthly_bill l2 = None ->
  monthly_bill_raw l1 = Some (a ++ c :: b) ->
  (c = dollar \/ c = space ->
   monthly_bill_raw l2 = Some (a ++ b) ->
   bill_after U l1 = bill_after U l2) /\
  (c = en_dash ->
   monthly_bill_raw l2 = Some (a ++ hyphen :: b) ->
   bill_after U l1 = bill_after U l2).
Proof.
  intros Hb1 Hb2 Hr1. split.
  - intros Hc Hr2.
    apply (bill_after_clean U l1 l2 _ _ Hb1 Hb2 Hr1 Hr2).
    rewrite !clean_bill_app. f_equal.
    change (c :: b) with ([c] ++ b). rewrite clean_bill_app.
    now destruct Hc as [-> | ->].
  - intros -> Hr2.
    apply (bill_after_clean U l1 l2 _ _ Hb1 Hb2 Hr1 Hr2).
    rewrite !clean_bill_app. f_equal.
Qed.

Lemma bill_text_equivalent_witness :
  bill_after ascii_only (lead_with_raw (lit "$ 200 - $ 400"))
    = bill_after ascii_only (lead_with_raw (lit "$200 - $ 400")) /\
  bill_after ascii_only (lead_with_raw (lit "200" ++ en_dash :: lit "400"))
    = bill_after ascii_only (lead_with_raw (lit "200-400")) /\
  bill_after ascii_only (lead_with_raw (lit "200-400")) = ret (Some 300%float).
Proof.
  split; [|split].
  - destruct (bill_text_equivalent ascii_only
                (lead_with_raw (lit "$ 200 - $ 400"))
                (lead_with_raw (lit "$200 - $ 400"))
                (lit "$") (lit "200 - $ 400") space
                eq_refl eq_refl eq_refl) as (H & _).
    exact (H (or_intror eq_refl) eq_refl).
  - destruct (bill_text_equivalent ascii_only
                (lead_with_raw (lit "200" ++ en_dash :: lit "400"))
                (lead_with_raw (lit "200-400"))
                (lit "200") (lit "400") en_dash
                eq_refl eq_refl eq_refl) as (_ & H).
    exact (H eq_refl eq_refl).
  - vm_compute. reflexivity.
Defined.

Lemma clean_bill_blank (raw : str) :
  forallb (fun c => (c =? dollar)%N || (c =? space)%N) raw = true ->
  clean_bill raw = [].
Proof.
  induction raw as [|c raw IH]; [reflexivity|].
  cbn [forallb]. rewrite andb_true_iff. intros [Hc Hall].
  change (c :: raw) with ([c] ++ raw).
  rewrite clean_bill_app, (IH Hall), app_nil_r.
  unfold clean_bill, replace. cbn [flat_map app].
  destruct (c =? dollar)%N; [reflexivity|].
  cbn [flat_map app]. cbn [orb] in Hc. now rewrite Hc.
Qed.

(** X17: A raw bill text of ['$'] and spaces only leaves the bill unset. *)
Theorem blank_bill_text_unset (U : Unicode) (l : LeadInput) (raw : str) :
  monthly_bill l = None -> monthly_bill_raw l = Some raw ->
  forallb (fun c => (c =? dollar)%N || (c =? space)%N) raw = true ->
  normalize_monthly_bill U l = ret l.
Proof.
  intros Hb Hr Hall. rewrite normalize_monthly_bill_eq. f_equal.
  apply normalized_unset. unfold bill_estimate. rewrite Hb, Hr.
  destruct raw as [|c raw]; [reflexivity|].
  apply estimate_of_raw_blank. now apply clean_bill_blank.
Qed.

Lemma blank_bill_text_unset_witness :
  normalize_monthly_bill ascii_only (lead_with_raw (lit "$ $"))
    = ret (lead_with_raw (lit "$ $")).
Proof.
  apply (blank_bill_text_unset ascii_only _ (lit "$ $")); reflexivity.
Defined.
